(** * MCP server management routes (src/server/routes/mcpServers.ts)

    A shallow embedding of the route handler that manages the MCP server
    overlay file [.claude/mcp-servers.json], and the properties the
    specification states about it.

    Modelling conventions.
    - JavaScript strings are [string], read as UTF-8.  The case mapping of
      characters outside ASCII is the runtime's: it is the parameter
      [upperCaseBMP] of the class [Runtime].  An optional or
      possibly-undefined field is an [option].  The test [!x] on such a
      field is [falsy]: the field is absent or holds the empty string.
    - An object used as a dictionary holds its own keys: where the code
      only looks keys up ([enabled]) they are a [gmap]; where the code
      iterates with [Object.entries] ([custom] and the built-in registry)
      they are a [JsObject.t], the list of entries in property iteration
      order.  A lookup [o[k]] in the handler also finds the members of
      [Object.prototype] ([inherited]), and an assignment to [__proto__]
      goes to the setter of the prototype.
    - The overlay file is the only mutable state.  The handler is written
      in a state monad over [World]: the disk together with the log of
      overlays written so far.  The text of the file is abstracted to the
      value [JSON.parse] yields on it; [JSON.stringify] followed by
      [JSON.parse] is the identity on overlay records.  Reading can fail,
      as the code provides for; writing succeeds.
    - The handler starts from the parsed request: method, path and, for
      [POST /api/mcp-servers], the body [req.json()] returned.
    - The network is a function [fetch] from a request to its outcome.
    - [MCP_SERVERS_BY_PROVIDER], imported from [../mcpServers], is a
      parameter.  Its keys are the names the imported module declares;
      [__proto__] is not taken to be one of them, so that
      [config.enabled[key] = true] in [loadMCPConfig] adds an entry for
      every key. *)

From stdpp Require Import base strings gmap list pretty.
From Stdlib Require Import Ascii NArith.

(** ** Characters and strings *)

Definition char_between (lo hi c : ascii) : bool :=
  ((N_of_ascii lo <=? N_of_ascii c) && (N_of_ascii c <=? N_of_ascii hi))%N.

Definition is_lower (c : ascii) : bool := char_between "a" "z" c.
Definition is_digit (c : ascii) : bool := char_between "0" "9" c.
Definition is_hyphen (c : ascii) : bool := Ascii.eqb c "-".
Definition is_slash (c : ascii) : bool := Ascii.eqb c "/".

(** The upper case of an ASCII character: only a to z change. *)
Definition ascii_upper (c : ascii) : ascii :=
  if is_lower c then ascii_of_N (N_of_ascii c - 32) else c.

Definition is_ascii (c : ascii) : bool := (N_of_ascii c <? 128)%N.

(** The number of bytes of the UTF-8 character that [c] starts. *)
Definition utf8_length (c : ascii) : nat :=
  let n := N_of_ascii c in
  if (n <? 128)%N then 1
  else if (n <? 224)%N then 2
  else if (n <? 240)%N then 3
  else 4.

Fixpoint string_map (f : ascii → ascii) (s : string) : string :=
  match s with
  | EmptyString => EmptyString
  | String c s' => String (f c) (string_map f s')
  end.

Fixpoint string_forall (p : ascii → bool) (s : string) : bool :=
  match s with
  | EmptyString => true
  | String c s' => p c && string_forall p s'
  end.

Definition is_empty (s : string) : bool :=
  match s with EmptyString => true | String _ _ => false end.

(** [!x] for a field that is a string when it is there. *)
Definition falsy (x : option string) : bool :=
  match x with
  | None => true
  | Some s => is_empty s
  end.

(** [x || d] for the same kind of field. *)
Definition or_else (x : option string) (d : string) : string :=
  match x with
  | None => d
  | Some s => if is_empty s then d else s
  end.

(** [s.replace(/-/g, ' ')] *)
Definition replace_hyphens (s : string) : string :=
  string_map (λ c, if is_hyphen c then " "%char else c) s.

Fixpoint string_take (n : nat) (s : string) : string :=
  match n, s with
  | S n', String c s' => String c (string_take n' s')
  | _, _ => EmptyString
  end.

Fixpoint string_drop (n : nat) (s : string) : string :=
  match n, s with
  | S n', String _ s' => string_drop n' s'
  | _, _ => s
  end.

(** The first character of a string, and what follows it. *)
Definition first_character (s : string) : string :=
  match s with
  | EmptyString => EmptyString
  | String c _ => string_take (utf8_length c) s
  end.

Definition after_first (s : string) : string :=
  match s with
  | EmptyString => EmptyString
  | String c _ => string_drop (utf8_length c) s
  end.

(** What the handler takes from the JavaScript runtime and the source does
    not hold: [c.toUpperCase()] for a string [c] of one character of the
    Basic Multilingual Plane outside ASCII. *)
Class Runtime : Type := { upperCaseBMP : string → string }.

(** [c.toUpperCase()] for the string [c] that [charAt(0)] yields: empty or
    one character.  Of a character beyond the Basic Multilingual Plane
    [charAt(0)] yields one surrogate, which has no upper case; [slice(1)]
    starts with the other one, so that such a character stays as it is. *)
Definition toUpperCase {runtime : Runtime} (c : string) : string :=
  match c with
  | EmptyString => EmptyString
  | String b _ =>
      match utf8_length b with
      | 1 => string_map ascii_upper c
      | 4 => c
      | _ => upperCaseBMP c
      end
  end.

(** [id.charAt(0).toUpperCase() + id.slice(1).replace(/-/g, ' ')] *)
Definition humanize {runtime : Runtime} (id : string) : string :=
  toUpperCase (first_character id) +:+ replace_hyphens (after_first id).

(** The names every object inherits from [Object.prototype]. *)
Definition object_prototype_members : list string :=
  [ "constructor"; "__defineGetter__"; "__defineSetter__"; "hasOwnProperty";
    "__lookupGetter__"; "__lookupSetter__"; "isPrototypeOf";
    "propertyIsEnumerable"; "toString"; "valueOf"; "__proto__";
    "toLocaleString" ].

Definition inherited (k : string) : bool :=
  bool_decide (k ∈ object_prototype_members).

(** [/^[a-z0-9-]+$/.test(id)] *)
Definition valid_id (id : string) : bool :=
  negb (is_empty id)
  && string_forall (λ c, is_lower c || is_digit c || is_hyphen c) id.

(** ** Objects iterated in property order *)

Module JsObject.

Abbreviation t V := (list (string * V)) (only parsing).

(** A key that is an array index ("0", "7", "42", below 2^32 - 1) is
    enumerated before every other key, in ascending numeric order. *)
Fixpoint digits_value (s : string) (acc : N) : option N :=
  match s with
  | EmptyString => Some acc
  | String c s' =>
      if is_digit c
      then digits_value s' (10 * acc + (N_of_ascii c - 48))%N
      else None
  end.

Definition array_index (k : string) : option N :=
  match k with
  | EmptyString => None
  | String c rest =>
      if Ascii.eqb c "0" && negb (is_empty rest) then None
      else match digits_value k 0 with
           | Some n => if (n <? 4294967295)%N then Some n else None
           | None => None
           end
  end.

Section Ops.
Context {V : Type}.

(** [o[k]] *)
Fixpoint get (k : string) (o : t V) : option V :=
  match o with
  | [] => None
  | (k', v) :: o' => if String.eqb k k' then Some v else get k o'
  end.

Definition keys (o : t V) : list string := o.*1.

Definition has (k : string) (o : t V) : bool :=
  match get k o with Some _ => true | None => false end.

(** [delete o[k]] *)
Fixpoint remove (k : string) (o : t V) : t V :=
  match o with
  | [] => []
  | (k', v) :: o' =>
      if String.eqb k k' then remove k o' else (k', v) :: remove k o'
  end.

Fixpoint replace (k : string) (v : V) (o : t V) : t V :=
  match o with
  | [] => []
  | (k', v') :: o' =>
      if String.eqb k k' then (k', v) :: o' else (k', v') :: replace k v o'
  end.

Fixpoint insert_index (n : N) (k : string) (v : V) (o : t V) : t V :=
  match o with
  | [] => [(k, v)]
  | (k', v') :: o' =>
      match array_index k' with
      | Some m =>
          if (m <? n)%N then (k', v') :: insert_index n k v o'
          else (k, v) :: o
      | None => (k, v) :: o
      end
  end.

(** [o[k] = v]: an existing key keeps its place, a new array index
    goes to its numeric place, any other new key goes last. *)
Definition set (k : string) (v : V) (o : t V) : t V :=
  if has k o then replace k v o
  else match array_index k with
       | Some n => insert_index n k v o
       | None => o ++ [(k, v)]
       end.
End Ops.

End JsObject.

(** ** Data model *)

Module MCPServerConfig.
(** A server record as it sits in the registry or in the overlay file.
    [MCPHttpServerConfig] uses [type], [name], [url], [headers];
    [MCPStdioServerConfig] uses [type], [name], [command], [args], [env].
    A field that the record does not carry is [None]. *)
Record t : Type := mk {
  type : string;
  name : option string;
  url : option string;
  headers : option (list (string * string));
  command : option string;
  args : option (list string);
  env : option (list (string * string))
}.

Definition is_http (r : t) : bool := String.eqb (type r) "http".
Definition is_stdio (r : t) : bool := String.eqb (type r) "stdio".
End MCPServerConfig.

Record MCPServersConfig : Type := {
  enabled : gmap string bool;
  custom : JsObject.t MCPServerConfig.t
}.

(** The element type of the [servers] array of [getAllServers]. *)
Module Descriptor.
Record t : Type := mk {
  id : string;
  name : string;
  type : string;
  url : option string;
  command : option string;
  args : option (list string);
  enabled : bool;
  builtin : bool
}.
End Descriptor.

(** The body of [POST /api/mcp-servers] after [req.json()]. *)
Module Body.
Record t : Type := mk {
  id : option string;
  name : option string;
  type : option string;
  url : option string;
  headers : option (list (string * string));
  command : option string;
  args : option (list string);
  env : option (list (string * string))
}.
End Body.

(** What a response carries.  [ToggledObject id] is
    [{success: true, id, enabled: {}}]: the value found under [enabled] was
    the prototype object. *)
Inductive Payload : Type :=
  | ServerList (servers : list Descriptor.t)
  | Toggled (id : string) (enabled : option bool)
  | ToggledObject (id : string)
  | Tested (message : option string)
  | Done (id : string)
  | Failure (error : string).

Definition success (p : Payload) : bool :=
  match p with Failure _ => false | _ => true end.

Record Response : Type := { payload : Payload; status : N }.

(** [new Response(JSON.stringify(p), { headers })]: status 200. *)
Definition ok (p : Payload) : Response := {| payload := p; status := 200 |}.
Definition failed (code : N) (error : string) : Response :=
  {| payload := Failure error; status := code |}.

Record Request : Type := { method : string; json : Body.t }.

(** ** The overlay file *)

Inductive FileContent : Type :=
  | NotJson
  | Json (config : MCPServersConfig).

Inductive Disk : Type :=
  | NoFile
  | Unreadable
  | File (content : FileContent).

Record World : Type := { disk : Disk; saved : list MCPServersConfig }.

Definition M (A : Type) : Type := World → A * World.

#[global] Instance M_ret : MRet M := λ A a w, (a, w).
#[global] Instance M_bind : MBind M :=
  λ A B f m w, let '(a, w') := m w in f a w'.

(** [fs.readFile] and [JSON.parse]; [None] stands for a thrown error. *)
Definition readFile (d : Disk) : option FileContent :=
  match d with
  | File c => Some c
  | NoFile | Unreadable => None
  end.

Definition JSON_parse (c : FileContent) : option MCPServersConfig :=
  match c with
  | Json config => Some config
  | NotJson => None
  end.

(** The outcome of [fetch]: a response with its status, or a thrown value
    that is an [Error] with a message, or some other thrown value. *)
Inductive Thrown : Type :=
  | ErrorObject (message : string)
  | OtherValue.

Inductive FetchOutcome : Type :=
  | Answered (status : N)
  | Rejected (reason : Thrown).

(** [response.ok] *)
Definition response_ok (status : N) : bool :=
  ((200 <=? status) && (status <=? 299))%N.

(** ** Route patterns *)

Definition api_root : string := "/api/mcp-servers".

Fixpoint strip_prefix (p s : string) : option string :=
  match p, s with
  | EmptyString, _ => Some s
  | String a p', String b s' =>
      if Ascii.eqb a b then strip_prefix p' s' else None
  | String _ _, EmptyString => None
  end.

(** The longest prefix without a slash, and what follows it. *)
Fixpoint segment (s : string) : string * string :=
  match s with
  | EmptyString => (EmptyString, EmptyString)
  | String c s' =>
      if is_slash c then (EmptyString, s)
      else let '(seg, rest) := segment s' in (String c seg, rest)
  end.

(** [pathname.match(/^\/api\/mcp-servers\/([^/]+)<suffix>$/)], for a suffix
    that is empty or starts with a slash; the result is the group. *)
Definition match_id_route (suffix pathname : string) : option string :=
  match strip_prefix (api_root +:+ "/") pathname with
  | Some tail =>
      let '(seg, rest) := segment tail in
      if negb (is_empty seg) && String.eqb rest suffix then Some seg else None
  | None => None
  end.

(** An identifier that can sit in a path: not empty, no slash. *)
Definition path_segment (id : string) : Prop :=
  is_empty id = false ∧ string_forall (λ c, negb (is_slash c)) id = true.

(** The path of a route on one server. *)
Definition id_path (id suffix : string) : string :=
  api_root +:+ "/" +:+ id +:+ suffix.

(** ** The handler *)

Section Routes.

(** The registry table imported from [../mcpServers], by provider. *)
Variable MCP_SERVERS_BY_PROVIDER : gmap string (JsObject.t MCPServerConfig.t).

(** [fetch(url, { method: 'GET', headers, signal })] *)
Variable fetch : option string → list (string * string) → FetchOutcome.

Context {runtime : Runtime}.

(** [MCP_SERVERS_BY_PROVIDER['anthropic'] || {}] *)
Definition builtinServers : JsObject.t MCPServerConfig.t :=
  default [] (MCP_SERVERS_BY_PROVIDER !! "anthropic").

(** The [catch] branch of [loadMCPConfig]. *)
Definition defaultConfig : MCPServersConfig :=
  {| enabled :=
       foldl (λ e key, <[key := true]> e) ∅ (JsObject.keys builtinServers);
     custom := [] |}.

(** [try { read; parse } catch { default }] *)
Definition loadMCPConfig : M MCPServersConfig :=
  λ w,
    match data ← readFile (disk w); JSON_parse data with
    | Some config => (config, w)
    | None => (defaultConfig, w)
    end.

Definition saveMCPConfig (config : MCPServersConfig) : M unit :=
  λ w, (tt, {| disk := File (Json config); saved := config :: saved w |}).

(** [config.enabled[id] ?? true] *)
Definition effective (config : MCPServersConfig) (id : string) : bool :=
  default true (enabled config !! id).

Definition builtinDescriptor (config : MCPServersConfig)
    (entry : string * MCPServerConfig.t) : Descriptor.t :=
  let '(id, serverConfig) := entry in
  {| Descriptor.id := id;
     Descriptor.name := humanize id;
     Descriptor.type := MCPServerConfig.type serverConfig;
     Descriptor.url :=
       if MCPServerConfig.is_http serverConfig
       then MCPServerConfig.url serverConfig else None;
     Descriptor.command :=
       if MCPServerConfig.is_stdio serverConfig
       then MCPServerConfig.command serverConfig else None;
     Descriptor.args :=
       if MCPServerConfig.is_stdio serverConfig
       then MCPServerConfig.args serverConfig else None;
     Descriptor.enabled := effective config id;
     Descriptor.builtin := true |}.

Definition customDescriptor (config : MCPServersConfig)
    (entry : string * MCPServerConfig.t) : Descriptor.t :=
  let '(id, serverConfig) := entry in
  {| Descriptor.id := id;
     Descriptor.name := or_else (MCPServerConfig.name serverConfig) id;
     Descriptor.type := MCPServerConfig.type serverConfig;
     Descriptor.url :=
       if MCPServerConfig.is_http serverConfig
       then MCPServerConfig.url serverConfig else None;
     Descriptor.command :=
       if MCPServerConfig.is_stdio serverConfig
       then MCPServerConfig.command serverConfig else None;
     Descriptor.args :=
       if MCPServerConfig.is_stdio serverConfig
       then MCPServerConfig.args serverConfig else None;
     Descriptor.enabled := effective config id;
     Descriptor.builtin := false |}.

(** [servers] starts empty; every [forEach] pushes at the end. *)
Definition getAllServers (config : MCPServersConfig) : list Descriptor.t :=
  let servers := [] in
  let servers :=
    foldl (λ acc entry, acc ++ [builtinDescriptor config entry])
          servers builtinServers in
  let servers :=
    foldl (λ acc entry, acc ++ [customDescriptor config entry])
          servers (custom config) in
  servers.

(** GET /api/mcp-servers *)
Definition listRoute : M Response :=
  config ← loadMCPConfig;
  let servers := getAllServers config in
  mret (ok (ServerList servers)).

(** What [config.enabled[id]] evaluates to: an own flag, a member of
    [Object.prototype] (a function, or the prototype itself under
    [__proto__]), or [undefined]. *)
Inductive Value : Type :=
  | Bool (flag : bool)
  | Object
  | Undefined.

Definition member (enabled : gmap string bool) (id : string) : Value :=
  match enabled !! id with
  | Some flag => Bool flag
  | None => if inherited id then Object else Undefined
  end.

(** [v ?? true] and [!v] *)
Definition or_true (v : Value) : Value :=
  match v with
  | Undefined => Bool true
  | Bool _ | Object => v
  end.

Definition negate (v : Value) : bool :=
  match v with
  | Bool flag => negb flag
  | Object => false
  | Undefined => true
  end.

(** [enabled[id] = flag].  An own key is overwritten and a new key is
    added, except that [__proto__], when it is not an own key, is the
    accessor of the prototype, whose setter ignores a boolean. *)
Definition setter_ignores (enabled : gmap string bool) (id : string) : bool :=
  match enabled !! id with
  | Some _ => false
  | None => String.eqb id "__proto__"
  end.

Definition assign (id : string) (flag : bool) (enabled : gmap string bool)
    : gmap string bool :=
  if setter_ignores enabled id then enabled else <[id := flag]> enabled.

(** [{ success: true, id, enabled: config.enabled[id] }] *)
Definition toggled (id : string) (v : Value) : Payload :=
  match v with
  | Bool flag => Toggled id (Some flag)
  | Object => ToggledObject id
  | Undefined => Toggled id None
  end.

(** POST /api/mcp-servers/:id/toggle *)
Definition toggleRoute (id : string) : M Response :=
  config ← loadMCPConfig;
  let currentState := or_true (member (enabled config) id) in
  let config :=
    {| enabled := assign id (negate currentState) (enabled config);
       custom := custom config |} in
  _ ← saveMCPConfig config;
  mret (ok (toggled id (member (enabled config) id))).

(** [o[id]] is truthy: [id] is an own key of [o] (its value is a record) or
    a member of [Object.prototype]. *)
Definition truthy (id : string) (o : JsObject.t MCPServerConfig.t) : bool :=
  JsObject.has id o || inherited id.

(** What [builtinServers[id] || config.custom[id]] evaluates to. *)
Inductive Resolved : Type :=
  | ServerRecord (serverConfig : MCPServerConfig.t)
  | PrototypeMember
  | NotFound.

Definition findServer (config : MCPServersConfig) (id : string) : Resolved :=
  match JsObject.get id builtinServers with
  | Some serverConfig => ServerRecord serverConfig
  | None =>
      if inherited id then PrototypeMember
      else match JsObject.get id (custom config) with
           | Some serverConfig => ServerRecord serverConfig
           | None => NotFound
           end
  end.

Definition probe (serverConfig : MCPServerConfig.t) : Response :=
  if MCPServerConfig.is_http serverConfig then
    match fetch (MCPServerConfig.url serverConfig)
                (default [] (MCPServerConfig.headers serverConfig)) with
    | Answered code =>
        if response_ok code || (code =? 404)%N || (code =? 405)%N
        then ok (Tested None)
        else ok (Failure ("Server returned status " +:+ pretty code))
    | Rejected (ErrorObject message) => ok (Failure message)
    | Rejected OtherValue => ok (Failure "Connection failed")
    end
  else ok (Tested (Some "Stdio server configuration validated")).

(** POST /api/mcp-servers/:id/test.  A member of [Object.prototype] has no
    [type], so that it takes the branch of the stdio servers. *)
Definition testRoute (id : string) : M Response :=
  config ← loadMCPConfig;
  match findServer config id with
  | NotFound => mret (failed 404 "Server not found")
  | ServerRecord serverConfig => mret (probe serverConfig)
  | PrototypeMember =>
      mret (ok (Tested (Some "Stdio server configuration validated")))
  end.

(** DELETE /api/mcp-servers/:id *)
Definition deleteRoute (id : string) : M Response :=
  config ← loadMCPConfig;
  if negb (truthy id (custom config)) then
    mret (failed 400 "Cannot delete built-in MCP servers")
  else
    let config :=
      {| enabled := delete id (enabled config);
         custom := JsObject.remove id (custom config) |} in
    _ ← saveMCPConfig config;
    mret (ok (Done id)).

(** The record [POST /api/mcp-servers] stores for a body. *)
Definition customRecord (type : string) (body : Body.t) : MCPServerConfig.t :=
  if String.eqb type "http" then
    {| MCPServerConfig.type := "http";
       MCPServerConfig.name := Body.name body;
       MCPServerConfig.url := Body.url body;
       MCPServerConfig.headers := Body.headers body;
       MCPServerConfig.command := None;
       MCPServerConfig.args := None;
       MCPServerConfig.env := None |}
  else
    {| MCPServerConfig.type := "stdio";
       MCPServerConfig.name := Body.name body;
       MCPServerConfig.url := None;
       MCPServerConfig.headers := None;
       MCPServerConfig.command := Body.command body;
       MCPServerConfig.args := Body.args body;
       MCPServerConfig.env := Body.env body |}.

(** POST /api/mcp-servers *)
Definition createRoute (body : Body.t) : M Response :=
  if falsy (Body.id body) || falsy (Body.type body) then
    mret (failed 400 "Missing required fields: id, type")
  else
    let id := default "" (Body.id body) in
    let type := default "" (Body.type body) in
    if String.eqb type "http" && falsy (Body.url body) then
      mret (failed 400 "HTTP servers require a URL")
    else if String.eqb type "stdio" && falsy (Body.command body) then
      mret (failed 400 "Stdio servers require a command")
    else if negb (valid_id id) then
      mret (failed 400 "Server ID must be lowercase alphanumeric with dashes")
    else
      config ← loadMCPConfig;
      if truthy id builtinServers || truthy id (custom config) then
        mret (failed 400 "MCP server with this ID already exists")
      else
        let config :=
          {| enabled := assign id true (enabled config);
             custom := JsObject.set id (customRecord type body) (custom config) |} in
        _ ← saveMCPConfig config;
        mret (ok (Done id)).

Definition handled (route : M Response) : M (option Response) :=
  response ← route; mret (Some response).

Definition handleMCPServerRoutes (req : Request) (pathname : string)
    : M (option Response) :=
  let on verb := String.eqb (method req) verb in
  let toggleMatch := match_id_route "/toggle" pathname in
  let testMatch := match_id_route "/test" pathname in
  let deleteMatch := match_id_route "" pathname in
  if on "GET" && String.eqb pathname api_root then handled listRoute
  else
    match (if on "POST" then toggleMatch else None) with
    | Some id => handled (toggleRoute id)
    | None =>
    match (if on "POST" then testMatch else None) with
    | Some id => handled (testRoute id)
    | None =>
    match (if on "DELETE" then deleteMatch else None) with
    | Some id => handled (deleteRoute id)
    | None =>
      if on "POST" && String.eqb pathname api_root
      then handled (createRoute (json req))
      else mret None
    end end end.

End Routes.

(** One request served: the world before and after. *)
Inductive serves {runtime : Runtime}
    (registry : gmap string (JsObject.t MCPServerConfig.t))
    (fetch : option string → list (string * string) → FetchOutcome)
    : World → World → Prop :=
  | serves_request req pathname w :
      serves registry fetch w
        (handleMCPServerRoutes registry fetch req pathname w).2.

(** A fresh installation: no overlay file, nothing written. *)
Definition fresh : World := {| disk := NoFile; saved := [] |}.

(** Worlds the handler can bring a fresh installation to. *)
Definition reachable {runtime : Runtime}
    (registry : gmap string (JsObject.t MCPServerConfig.t))
    (fetch : option string → list (string * string) → FetchOutcome)
    (w : World) : Prop :=
  rtc (serves registry fetch) fresh w.

(** The overlay a request sees in a world, and the world a save leaves. *)
Definition overlay (registry : gmap string (JsObject.t MCPServerConfig.t))
    (w : World) : MCPServersConfig :=
  (loadMCPConfig registry w).1.

Definition written (config : MCPServersConfig) (w : World) : World :=
  {| disk := File (Json config); saved := config :: saved w |}.

(** The three ways the handler rewrites the overlay. *)
Inductive mutation (registry : gmap string (JsObject.t MCPServerConfig.t))
    : MCPServersConfig → MCPServersConfig → Prop :=
  | mutation_toggle id config :
      mutation registry config
        {| enabled := assign id (negb (effective config id)) (enabled config);
           custom := custom config |}
  | mutation_delete id config :
      truthy id (custom config) = true →
      mutation registry config
        {| enabled := delete id (enabled config);
           custom := JsObject.remove id (custom config) |}
  | mutation_create id type body config :
      Body.id body = Some id →
      Body.type body = Some type →
      valid_id id = true →
      (String.eqb type "http" && falsy (Body.url body) = false) →
      (String.eqb type "stdio" && falsy (Body.command body) = false) →
      inherited id = false →
      JsObject.has id (builtinServers registry) = false →
      JsObject.has id (custom config) = false →
      mutation registry config
        {| enabled := <[id := true]> (enabled config);
           custom := JsObject.set id (customRecord type body) (custom config) |}.

(** A record carries the fields of its own variant and no others. *)
Definition variant_fields_only (r : MCPServerConfig.t) : Prop :=
  (MCPServerConfig.type r = "http"
   ∧ MCPServerConfig.command r = None
   ∧ MCPServerConfig.args r = None
   ∧ MCPServerConfig.env r = None)
  ∨ (MCPServerConfig.type r = "stdio"
     ∧ MCPServerConfig.url r = None
     ∧ MCPServerConfig.headers r = None).

(** The display-name rule as the specification words it: the record's own
    name when it is not empty, otherwise the identifier with its first
    character capitalized and its hyphens replaced by spaces. *)
Definition spec_humanize {runtime : Runtime} (id : string) : string :=
  let spaced := replace_hyphens id in
  toUpperCase (first_character spaced) +:+ after_first spaced.

Definition spec_display_name {runtime : Runtime} (id : string)
    (serverConfig : MCPServerConfig.t) : string :=
  or_else (MCPServerConfig.name serverConfig) (spec_humanize id).

(** ** Sample data *)

(** A runtime that knows one accented letter. *)
Definition sample_runtime : Runtime :=
  {| upperCaseBMP := λ c, if String.eqb c "é" then "É" else c |}.

Definition search_server : MCPServerConfig.t :=
  {| MCPServerConfig.type := "http";
     MCPServerConfig.name := Some "Search";
     MCPServerConfig.url := Some "https://search.example/mcp";
     MCPServerConfig.headers := None;
     MCPServerConfig.command := None;
     MCPServerConfig.args := None;
     MCPServerConfig.env := None |}.

Definition files_server : MCPServerConfig.t :=
  {| MCPServerConfig.type := "stdio";
     MCPServerConfig.name := None;
     MCPServerConfig.url := None;
     MCPServerConfig.headers := None;
     MCPServerConfig.command := Some "npx";
     MCPServerConfig.args := Some ["-y"; "files-mcp"];
     MCPServerConfig.env := None |}.

Definition sample_registry : gmap string (JsObject.t MCPServerConfig.t) :=
  {[ "anthropic" := [("web-search", search_server); ("file-system", files_server)] ]}.

Definition dashed_registry : gmap string (JsObject.t MCPServerConfig.t) :=
  {[ "anthropic" := [("-x", files_server)] ]}.

Definition accented_registry : gmap string (JsObject.t MCPServerConfig.t) :=
  {[ "anthropic" := [("élan-x", files_server)] ]}.

Definition notes_server : MCPServerConfig.t :=
  {| MCPServerConfig.type := "http";
     MCPServerConfig.name := Some "Notes";
     MCPServerConfig.url := Some "https://notes.example";
     MCPServerConfig.headers := None;
     MCPServerConfig.command := None;
     MCPServerConfig.args := None;
     MCPServerConfig.env := None |}.

Definition sample_overlay : MCPServersConfig :=
  {| enabled := {[ "web-search" := false ]};
     custom := [("notes", notes_server); ("local-tool", files_server)] |}.

Definition sample_world : World :=
  {| disk := File (Json sample_overlay); saved := [] |}.

Definition sample_body : Body.t :=
  {| Body.id := Some "my-tool";
     Body.name := None;
     Body.type := Some "http";
     Body.url := Some "https://x";
     Body.headers := None;
     Body.command := Some "ignored";
     Body.args := None;
     Body.env := None |}.

Definition offline : option string → list (string * string) → FetchOutcome :=
  λ _ _, Rejected (ErrorObject "Unable to connect").


Definition create_request : Request :=
  {| method := "POST"; json := sample_body |}.

(** The world after [sample_body] is posted to a fresh installation. *)
Definition created_world : World :=
  (handleMCPServerRoutes (runtime := sample_runtime) sample_registry offline
     create_request api_root fresh).2.


(** The requests the specification has [Create] reject: a required field
    is missing (absent or empty, the code's [!x]), the identifier is
    malformed, or the identifier is taken. *)
Definition create_rejected (registry : gmap string (JsObject.t MCPServerConfig.t))
    (config : MCPServersConfig) (body : Body.t) : Prop :=
  falsy (Body.id body) = true
  ∨ falsy (Body.type body) = true
  ∨ (Body.type body = Some "http" ∧ falsy (Body.url body) = true)
  ∨ (Body.type body = Some "stdio" ∧ falsy (Body.command body) = true)
  ∨ (∃ id, Body.id body = Some id ∧ valid_id id = false)
  ∨ (∃ id, Body.id body = Some id
           ∧ (id ∈ JsObject.keys (builtinServers registry)
              ∨ id ∈ JsObject.keys (custom config))).

Definition stdio_body : Body.t :=
  {| Body.id := Some "runner";
     Body.name := Some "Runner";
     Body.type := Some "stdio";
     Body.url := Some "https://dropped";
     Body.headers := Some [("x-key", "dropped")];
     Body.command := Some "node";
     Body.args := Some ["run.js"];
     Body.env := None |}.

Definition shouting_body : Body.t :=
  {| Body.id := Some "My_Tool";
     Body.name := None;
     Body.type := Some "http";
     Body.url := Some "https://x";
     Body.headers := None;
     Body.command := None;
     Body.args := None;
     Body.env := None |}.

(** A descriptor with its [enabled] flag negated when it carries [id]. *)
Definition flip_enabled (id : string) (d : Descriptor.t) : Descriptor.t :=
  if String.eqb (Descriptor.id d) id then
    {| Descriptor.id := Descriptor.id d;
       Descriptor.name := Descriptor.name d;
       Descriptor.type := Descriptor.type d;
       Descriptor.url := Descriptor.url d;
       Descriptor.command := Descriptor.command d;
       Descriptor.args := Descriptor.args d;
       Descriptor.enabled := negb (Descriptor.enabled d);
       Descriptor.builtin := Descriptor.builtin d |}
  else d.

(** The request shapes the handler answers. *)
Definition routed (req : Request) (pathname : string) : Prop :=
  (method req = "GET" ∧ pathname = api_root)
  ∨ (method req = "POST"
     ∧ ∃ id, path_segment id
             ∧ (pathname = id_path id "/toggle" ∨ pathname = id_path id "/test"))
  ∨ (method req = "DELETE" ∧ ∃ id, path_segment id ∧ pathname = id_path id "")
  ∨ (method req = "POST" ∧ pathname = api_root).

Definition sse_body : Body.t :=
  {| Body.id := Some "events";
     Body.name := None;
     Body.type := Some "sse";
     Body.url := Some "https://events.example";
     Body.headers := None;
     Body.command := None;
     Body.args := None;
     Body.env := None |}.

Definition delete_request : Request :=
  {| method := "DELETE"; json := sample_body |}.

Definition get_request : Request :=
  {| method := "GET"; json := sample_body |}.

(** A record, and an object of records, with [headers] and [env] dropped. *)
Definition without_headers_env (r : MCPServerConfig.t) : MCPServerConfig.t :=
  {| MCPServerConfig.type := MCPServerConfig.type r;
     MCPServerConfig.name := MCPServerConfig.name r;
     MCPServerConfig.url := MCPServerConfig.url r;
     MCPServerConfig.headers := None;
     MCPServerConfig.command := MCPServerConfig.command r;
     MCPServerConfig.args := MCPServerConfig.args r;
     MCPServerConfig.env := None |}.

Definition drop_headers_env (o : JsObject.t MCPServerConfig.t)
    : JsObject.t MCPServerConfig.t :=
  (λ entry, (entry.1, without_headers_env entry.2)) <$> o.


(** The requests line 302 turns away on top of those [create_rejected]
    lists: [builtinServers[id] || config.custom[id]] is also truthy for an
    identifier that names a member every object inherits. *)
Definition create_refused (registry : gmap string (JsObject.t MCPServerConfig.t))
    (config : MCPServersConfig) (body : Body.t) : Prop :=
  create_rejected registry config body
  ∨ (∃ id, Body.id body = Some id ∧ inherited id = true).

Definition constructor_body : Body.t :=
  {| Body.id := Some "constructor";
     Body.name := None;
     Body.type := Some "http";
     Body.url := Some "https://x";
     Body.headers := None;
     Body.command := None;
     Body.args := None;
     Body.env := None |}.

(** A registry whose one built-in server is named like a member that every
    object inherits. *)
Definition inherited_registry : gmap string (JsObject.t MCPServerConfig.t) :=
  {[ "anthropic" := [("constructor", files_server)] ]}.

(** * Properties *)

(** The closed examples run on the sample runtime. *)
#[local] Existing Instance sample_runtime.

(** ** The definitions at work *)

Example humanize_web_search : humanize "web-search" = "Web search".
Proof. reflexivity. Qed.

Example humanize_accented : humanize "élan-x" = "Élan x".
Proof. reflexivity. Qed.

Example inherited_examples :
  inherited "constructor" = true
  ∧ inherited "__proto__" = true
  ∧ inherited "web-search" = false
  ∧ valid_id "constructor" = true
  ∧ valid_id "__proto__" = false.
Proof. by repeat split. Qed.

Example valid_id_examples :
  valid_id "my-tool" = true
  ∧ valid_id "My_Tool" = false
  ∧ valid_id "" = false
  ∧ valid_id "42" = true.
Proof. by repeat split. Qed.

Example falsy_examples :
  falsy None = true ∧ falsy (Some "") = true ∧ falsy (Some "http") = false.
Proof. by repeat split. Qed.

Example array_index_examples :
  JsObject.array_index "42" = Some 42%N
  ∧ JsObject.array_index "007" = None
  ∧ JsObject.array_index "4294967295" = None
  ∧ JsObject.array_index "a1" = None.
Proof. by repeat split. Qed.

(** New keys go last, except array indices, which come first in numeric
    order; an existing key keeps its place. *)
Example set_order :
  JsObject.set "b" 6 (JsObject.set "7" 5 (JsObject.set "42" 4
    (JsObject.set "b" 3 (JsObject.set "a" 2 (JsObject.set "007" 1 [])))))
  = [("7", 5); ("42", 4); ("007", 1); ("a", 2); ("b", 6)].
Proof. reflexivity. Qed.

Example match_id_route_examples :
  match_id_route "/toggle" "/api/mcp-servers/web-search/toggle"
  = Some "web-search"
  ∧ match_id_route "" "/api/mcp-servers/web-search" = Some "web-search"
  ∧ match_id_route "" "/api/mcp-servers/web-search/toggle" = None
  ∧ match_id_route "/test" "/api/mcp-servers//test" = None
  ∧ match_id_route "" "/api/mcp-servers" = None.
Proof. by repeat split. Qed.

(** A fresh installation, then create, toggle, delete. *)
Example session :
  let serve verb body path w :=
    handleMCPServerRoutes sample_registry offline
      {| method := verb; json := body |} path w in
  let '(r1, w1) := serve "POST" sample_body "/api/mcp-servers" fresh in
  let '(r2, w2) := serve "POST" sample_body "/api/mcp-servers" w1 in
  let '(r3, w3) := serve "POST" sample_body "/api/mcp-servers/my-tool/toggle" w2 in
  let '(r4, w4) := serve "DELETE" sample_body "/api/mcp-servers/my-tool" w3 in
  let '(r5, w5) := serve "DELETE" sample_body "/api/mcp-servers/my-tool" w4 in
  let '(r6, w6) := serve "PUT" sample_body "/api/mcp-servers/my-tool" w5 in
  r1 = Some (ok (Done "my-tool"))
  ∧ r2 = Some (failed 400 "MCP server with this ID already exists")
  ∧ r3 = Some (ok (Toggled "my-tool" (Some false)))
  ∧ r4 = Some (ok (Done "my-tool"))
  ∧ r5 = Some (failed 400 "Cannot delete built-in MCP servers")
  ∧ r6 = None
  ∧ length (saved w6) = 3
  ∧ custom (overlay sample_registry w6) = [].
Proof. vm_compute. by repeat split. Qed.

(** ** Objects *)

Module JsObjectFacts.
Import JsObject.

Section Facts.
Context {V : Type}.
Implicit Types (o : t V) (k : string) (v : V).

Lemma get_None_keys k o : get k o = None ↔ k ∉ keys o.
Proof.
  unfold keys. induction o as [|[k' v'] o IH]; simpl.
  - split; [intros _; apply not_elem_of_nil | done].
  - rewrite not_elem_of_cons. destruct (String.eqb_spec k k') as [->|Hne].
    + split; [done | intros [? _]; done].
    + rewrite IH. tauto.
Qed.

Lemma has_keys k o : has k o = true ↔ k ∈ keys o.
Proof.
  unfold has. destruct (get k o) eqn:E.
  - split; [intros _ | done].
    destruct (decide (k ∈ keys o)) as [|Hn]; [done|].
    apply get_None_keys in Hn. congruence.
  - apply get_None_keys in E. split; [done | intros; contradiction].
Qed.

Lemma has_false_get k o : has k o = false ↔ get k o = None.
Proof. unfold has. destruct (get k o); split; congruence. Qed.

Lemma get_app_fresh k v o : get k o = None → get k (o ++ [(k, v)]) = Some v.
Proof.
  induction o as [|[k' v'] o IH]; simpl.
  - by rewrite String.eqb_refl.
  - destruct (String.eqb k k'); [done | exact IH].
Qed.

Lemma get_app_other k k' v o : k ≠ k' → get k' (o ++ [(k, v)]) = get k' o.
Proof.
  intros Hne. induction o as [|[k2 v2] o IH]; simpl.
  - destruct (String.eqb_spec k' k); congruence.
  - by rewrite IH.
Qed.

Lemma get_replace_eq k v o : has k o = true → get k (replace k v o) = Some v.
Proof.
  unfold has. induction o as [|[k' v'] o IH]; simpl; [done|].
  destruct (String.eqb k k') eqn:E; simpl; rewrite E; [done | exact IH].
Qed.

Lemma get_replace_ne k k' v o : k ≠ k' → get k' (replace k v o) = get k' o.
Proof.
  intros Hne. induction o as [|[k2 v2] o IH]; simpl; [done|].
  destruct (String.eqb_spec k k2) as [->|]; simpl.
  - destruct (String.eqb_spec k' k2); congruence.
  - by rewrite IH.
Qed.

Lemma get_insert_index_fresh n k v o :
  get k o = None → get k (insert_index n k v o) = Some v.
Proof.
  induction o as [|[k' v'] o IH]; simpl.
  - by rewrite String.eqb_refl.
  - destruct (String.eqb k k') eqn:E; [done|]. intros Hget.
    destruct (array_index k') as [m|]; [destruct (m <? n)%N|]; simpl;
      rewrite ?String.eqb_refl, ?E; auto.
Qed.

Lemma get_insert_index_other n k k' v o :
  k ≠ k' → get k' (insert_index n k v o) = get k' o.
Proof.
  intros Hne.
  assert (String.eqb k' k = false) as E by (apply String.eqb_neq; congruence).
  induction o as [|[k2 v2] o IH]; simpl.
  - by rewrite E.
  - destruct (array_index k2) as [m|]; [destruct (m <? n)%N|]; simpl;
      rewrite ?E, ?IH; done.
Qed.

(** Reading back what was assigned. *)
Lemma get_set_eq k v o : get k (set k v o) = Some v.
Proof.
  unfold set. destruct (has k o) eqn:E.
  - by apply get_replace_eq.
  - apply has_false_get in E. destruct (array_index k).
    + by apply get_insert_index_fresh.
    + by apply get_app_fresh.
Qed.

(** An assignment leaves the other keys alone. *)
Lemma get_set_ne k k' v o : k ≠ k' → get k' (set k v o) = get k' o.
Proof.
  intros Hne. unfold set. destruct (has k o).
  - by apply get_replace_ne.
  - destruct (array_index k).
    + by apply get_insert_index_other.
    + by apply get_app_other.
Qed.

Lemma get_remove_eq k o : get k (remove k o) = None.
Proof.
  induction o as [|[k' v'] o IH]; simpl; [done|].
  destruct (String.eqb k k') eqn:E; simpl; rewrite ?E; done.
Qed.

Lemma get_remove_ne k k' o : k ≠ k' → get k' (remove k o) = get k' o.
Proof.
  intros Hne. induction o as [|[k2 v2] o IH]; simpl; [done|].
  destruct (String.eqb_spec k k2) as [->|]; simpl.
  - rewrite IH. destruct (String.eqb_spec k' k2); congruence.
  - by rewrite IH.
Qed.

End Facts.
End JsObjectFacts.

(** ** Loading and saving *)

Section StoreFacts.
Variable registry : gmap string (JsObject.t MCPServerConfig.t).

Lemma loadMCPConfig_overlay w :
  loadMCPConfig registry w = (overlay registry w, w).
Proof.
  unfold overlay, loadMCPConfig.
  destruct (readFile (disk w)) as [data|]; simpl; [|done].
  by destruct (JSON_parse data).
Qed.

Lemma overlay_written config w : overlay registry (written config w) = config.
Proof. done. Qed.

Lemma overlay_fresh : overlay registry fresh = defaultConfig registry.
Proof. done. Qed.

Lemma enable_all_lookup (l : list string) (m : gmap string bool) k :
  foldl (λ e key, <[key := true]> e) m l !! k
  = if decide (k ∈ l) then Some true else m !! k.
Proof.
  revert m. induction l as [|a l IH]; intros m; cbn [foldl].
  - case_decide as Hin; [by apply elem_of_nil in Hin | done].
  - rewrite IH. destruct (decide (k ∈ l)) as [Hin|Hout].
    + case_decide as Hc; [done|]. exfalso. apply Hc. by right.
    + destruct (decide (k = a)) as [->|Hne].
      * case_decide as Hc; [apply lookup_insert_eq|].
        exfalso. apply Hc. by left.
      * case_decide as Hc; [|by apply lookup_insert_ne].
        apply elem_of_cons in Hc as [?|?]; done.
Qed.

Lemma defaultConfig_enabled k :
  enabled (defaultConfig registry) !! k
  = if decide (k ∈ JsObject.keys (builtinServers registry))
    then Some true else None.
Proof.
  unfold defaultConfig; simpl. rewrite enable_all_lookup.
  by rewrite lookup_empty.
Qed.

Lemma config_eta (config : MCPServersConfig) :
  {| enabled := enabled config; custom := custom config |} = config.
Proof. by destruct config. Qed.

(** [!(enabled[id] ?? true)]: a member of the prototype counts as true. *)
Lemma negate_or_true (e : gmap string bool) id :
  negate (or_true (member e id)) = negb (default true (e !! id)).
Proof.
  unfold member. destruct (e !! id); [done|]. by destruct (inherited id).
Qed.

Lemma setter_ignores_spec (e : gmap string bool) id :
  setter_ignores e id = true ↔ id = "__proto__" ∧ e !! id = None.
Proof.
  unfold setter_ignores. destruct (e !! id).
  - split; [done | by intros [_ ?]].
  - rewrite String.eqb_eq. tauto.
Qed.

Lemma valid_id_not_proto id : valid_id id = true → id ≠ "__proto__".
Proof. by intros Hvalid ->. Qed.

Lemma assign_valid id flag (e : gmap string bool) :
  valid_id id = true → assign id flag e = <[id := flag]> e.
Proof.
  intros Hvalid. unfold assign.
  destruct (setter_ignores e id) eqn:E; [|done].
  apply setter_ignores_spec in E as [-> _]. done.
Qed.

Lemma toggleRoute_world id w :
  let config := overlay registry w in
  (toggleRoute registry id w).2
  = written {| enabled := assign id (negb (effective config id)) (enabled config);
               custom := custom config |} w.
Proof.
  unfold toggleRoute, mbind, M_bind. rewrite loadMCPConfig_overlay.
  simpl. by rewrite negate_or_true.
Qed.

Lemma toggleRoute_run id w :
  let config := overlay registry w in
  toggleRoute registry id w
  = if setter_ignores (enabled config) id
    then (ok (ToggledObject id), written config w)
    else (ok (Toggled id (Some (negb (effective config id)))),
          written {| enabled := <[id := negb (effective config id)]>
                                  (enabled config);
                     custom := custom config |} w).
Proof.
  unfold toggleRoute, mbind, M_bind. rewrite loadMCPConfig_overlay.
  simpl. rewrite negate_or_true. unfold assign, effective.
  destruct (setter_ignores (enabled (overlay registry w)) id) eqn:E.
  - apply setter_ignores_spec in E as [-> Hnone].
    unfold member. rewrite Hnone. simpl. by rewrite config_eta.
  - unfold member. by rewrite lookup_insert_eq.
Qed.

Lemma deleteRoute_run id w :
  let config := overlay registry w in
  deleteRoute registry id w
  = if truthy id (custom config)
    then (ok (Done id),
          written {| enabled := delete id (enabled config);
                     custom := JsObject.remove id (custom config) |} w)
    else (failed 400 "Cannot delete built-in MCP servers", w).
Proof.
  unfold deleteRoute, mbind, M_bind. rewrite loadMCPConfig_overlay.
  simpl. by destruct (truthy id (custom (overlay registry w))).
Qed.

(** The checks of [POST /api/mcp-servers], in the order the code makes them. *)
Lemma createRoute_run body w :
  let config := overlay registry w in
  let id := default "" (Body.id body) in
  let type := default "" (Body.type body) in
  createRoute registry body w
  = if falsy (Body.id body) || falsy (Body.type body)
    then (failed 400 "Missing required fields: id, type", w)
    else if String.eqb type "http" && falsy (Body.url body)
    then (failed 400 "HTTP servers require a URL", w)
    else if String.eqb type "stdio" && falsy (Body.command body)
    then (failed 400 "Stdio servers require a command", w)
    else if negb (valid_id id)
    then (failed 400 "Server ID must be lowercase alphanumeric with dashes", w)
    else if truthy id (builtinServers registry) || truthy id (custom config)
    then (failed 400 "MCP server with this ID already exists", w)
    else (ok (Done id),
          written {| enabled := <[id := true]> (enabled config);
                     custom := JsObject.set id (customRecord type body)
                                 (custom config) |} w).
Proof.
  unfold createRoute. cbv zeta.
  repeat (match goal with |- context [if ?b then _ else _] =>
            destruct b eqn:?; [done|] end).
  unfold mbind, M_bind. rewrite loadMCPConfig_overlay. simpl.
  destruct (truthy _ (builtinServers registry) || _); [done|].
  rewrite assign_valid; [done|]. by destruct (valid_id _).
Qed.

Lemma falsy_false (x : option string) :
  falsy x = false → ∃ s, x = Some s ∧ is_empty s = false.
Proof. destruct x as [s|]; simpl; [eauto | done]. Qed.

Lemma truthy_false id (o : JsObject.t MCPServerConfig.t) :
  truthy id o = false ↔ JsObject.has id o = false ∧ inherited id = false.
Proof. unfold truthy. apply orb_false_iff. Qed.

Context {runtime : Runtime}.

(** Every request leaves the world alone or saves one mutation of the
    overlay it loaded. *)
Lemma serves_mutation fetch w w' :
  serves registry fetch w w' →
  w' = w ∨ ∃ config', mutation registry (overlay registry w) config'
                      ∧ w' = written config' w.
Proof.
  intros [req pathname w0].
  unfold handleMCPServerRoutes, handled, mbind, M_bind, mret, M_ret.
  cbv zeta.
  destruct (String.eqb (method req) "GET" && String.eqb pathname api_root).
  { unfold listRoute, mbind, M_bind, mret, M_ret.
    rewrite loadMCPConfig_overlay. by left. }
  destruct (if String.eqb (method req) "POST"
            then match_id_route "/toggle" pathname else None) as [id|].
  { pose proof (toggleRoute_world id w0) as Hw. cbv zeta in Hw.
    destruct (toggleRoute registry id w0) as [response w1]. simpl in *.
    right. eexists. split; [|exact Hw]. apply mutation_toggle. }
  destruct (if String.eqb (method req) "POST"
            then match_id_route "/test" pathname else None) as [id|].
  { unfold testRoute, mbind, M_bind, mret, M_ret.
    rewrite loadMCPConfig_overlay.
    destruct (findServer _ _ _); by left. }
  destruct (if String.eqb (method req) "DELETE"
            then match_id_route "" pathname else None) as [id|].
  { rewrite deleteRoute_run. cbv zeta.
    destruct (truthy id (custom (overlay registry w0))) eqn:E;
      simpl; [right | by left].
    eexists. split; [|done]. by apply mutation_delete. }
  destruct (String.eqb (method req) "POST" && String.eqb pathname api_root);
    [|by left].
  rewrite createRoute_run. cbv zeta.
  destruct (falsy (Body.id (json req)) || falsy (Body.type (json req)))
    eqn:E1; [by left|].
  apply orb_false_iff in E1 as [Eid Etype].
  apply falsy_false in Eid as (id & Hid & _).
  apply falsy_false in Etype as (type & Htype & _).
  rewrite Hid, Htype. simpl default.
  destruct (String.eqb type "http" && falsy (Body.url (json req)))
    eqn:E2; [by left|].
  destruct (String.eqb type "stdio" && falsy (Body.command (json req)))
    eqn:E3; [by left|].
  destruct (valid_id id) eqn:E4; simpl negb; cbv iota; [|by left].
  destruct (truthy id (builtinServers registry)
            || truthy id (custom (overlay registry w0)))
    eqn:E5; [by left|].
  apply orb_false_iff in E5 as [[E5 E7]%truthy_false [E6 _]%truthy_false].
  simpl. right. eexists. split; [|done].
  by apply mutation_create.
Qed.

(** An overlay property that the default overlay has and every mutation
    keeps holds in every reachable world. *)
Lemma reachable_overlay_ind fetch (P : MCPServersConfig → Prop) :
  P (defaultConfig registry) →
  (∀ config config', P config → mutation registry config config' → P config') →
  ∀ w, reachable registry fetch w → P (overlay registry w).
Proof.
  intros Hdefault Hstep w Hreach. unfold reachable in Hreach.
  revert w Hreach. apply rtc_ind_r.
  - by rewrite overlay_fresh.
  - intros w1 w2 _ Hserves IH.
    apply serves_mutation in Hserves as [->|(config' & Hmut & ->)]; [done|].
    rewrite overlay_written. by eapply Hstep.
Qed.

End StoreFacts.

(** ** The merged listing *)

Section ListingFacts.
Context {runtime : Runtime}.
Variable registry : gmap string (JsObject.t MCPServerConfig.t).
Variable config : MCPServersConfig.

Lemma foldl_push {A B} (f : A → B) (l : list A) (acc : list B) :
  foldl (λ acc entry, acc ++ [f entry]) acc l = acc ++ (f <$> l).
Proof.
  revert acc. induction l as [|a l IH]; intros acc; cbn [foldl fmap list_fmap].
  - by rewrite app_nil_r.
  - rewrite IH. by rewrite <- app_assoc.
Qed.

Lemma getAllServers_app :
  getAllServers registry config
  = (builtinDescriptor config <$> builtinServers registry)
    ++ (customDescriptor config <$> custom config).
Proof. unfold getAllServers. cbv zeta. by rewrite !foldl_push. Qed.


Lemma customDescriptor_id entry :
  Descriptor.id (customDescriptor config entry) = entry.1.
Proof. by destruct entry. Qed.





End ListingFacts.

(** ** Display names *)

Lemma string_map_length f s : String.length (string_map f s) = String.length s.
Proof. induction s as [|c s IH]; simpl; [done | by rewrite IH]. Qed.

Lemma string_map_get f s n :
  String.get n (string_map f s) = f <$> String.get n s.
Proof.
  revert n. induction s as [|c s IH]; intros [|n]; simpl; auto.
Qed.

Lemma string_take_drop n s : string_take n s +:+ string_drop n s = s.
Proof.
  revert s. induction n as [|n IH]; intros [|c s]; try done.
  cbn [string_take string_drop].
  change (String c (string_take n s) +:+ string_drop n s)
    with (String c (string_take n s +:+ string_drop n s)).
  f_equal. apply IH.
Qed.

Lemma first_then_rest id : first_character id +:+ after_first id = id.
Proof. destruct id as [|c rest]; [done|]. apply string_take_drop. Qed.

Lemma utf8_length_ascii c : is_ascii c = true → utf8_length c = 1.
Proof. unfold is_ascii, utf8_length. by intros ->. Qed.

(** An identifier that starts with an ASCII character: the runtime's case
    mapping is not consulted. *)
Lemma humanize_ascii {runtime : Runtime} c rest :
  is_ascii c = true →
  humanize (String c rest) = String (ascii_upper c) (replace_hyphens rest).
Proof.
  intros Hc. unfold humanize, first_character, after_first, toUpperCase.
  rewrite utf8_length_ascii by done. simpl.
  by rewrite utf8_length_ascii.
Qed.

(** C7. When the overlay file is missing, unreadable or not parseable,
    [loadMCPConfig] returns (it has no failing outcome) the default overlay
    and leaves the world as it is: [custom] is empty and [enabled] holds
    [true] for every built-in identifier, and nothing else. *)
Theorem loadMCPConfig_defaults registry w :
  disk w = NoFile ∨ disk w = Unreadable ∨ disk w = File NotJson →
  ∃ config,
    loadMCPConfig registry w = (config, w)
    ∧ custom config = []
    ∧ (∀ id, id ∈ JsObject.keys (builtinServers registry) →
             enabled config !! id = Some true)
    ∧ (∀ id, id ∉ JsObject.keys (builtinServers registry) →
             enabled config !! id = None).
Proof.
  intros Hdisk. exists (defaultConfig registry). split.
  - unfold loadMCPConfig. by destruct Hdisk as [->|[->| ->]].
  - split; [done|].
    split; intros id Hid; rewrite defaultConfig_enabled; by case_decide.
Qed.

Lemma loadMCPConfig_defaults_witness :
  disk fresh = NoFile
  ∧ ∃ config,
      loadMCPConfig sample_registry fresh = (config, fresh)
      ∧ custom config = []
      ∧ (∀ id, id ∈ JsObject.keys (builtinServers sample_registry) →
               enabled config !! id = Some true)
      ∧ (∀ id, id ∉ JsObject.keys (builtinServers sample_registry) →
               enabled config !! id = None).
Proof.
  split; [reflexivity|].
  apply (loadMCPConfig_defaults sample_registry fresh). left. reflexivity.
Defined.

(** C3 (as amended). In the listing, the display name of a built-in server
    is always the humanized identifier, whatever name its record carries:
    the first character in upper case, as JavaScript's [toUpperCase] maps
    it, followed by the rest of the identifier with every hyphen replaced
    by a space.  When the identifier starts with an ASCII character, only
    a letter a to z changes, the name is as long as the identifier, and
    each later character is a space where the identifier has a hyphen and
    the identifier's character elsewhere. *)
Theorem builtin_name_is_humanized_id {runtime : Runtime}
    registry config i id serverConfig :
  builtinServers registry !! i = Some (id, serverConfig) →
  ∃ d,
    getAllServers registry config !! i = Some d
    ∧ Descriptor.id d = id
    ∧ Descriptor.builtin d = true
    ∧ id = first_character id +:+ after_first id
    ∧ Descriptor.name d
      = toUpperCase (first_character id) +:+ replace_hyphens (after_first id)
    ∧ ∀ c rest,
        id = String c rest →
        is_ascii c = true →
        Descriptor.name d = String (ascii_upper c) (replace_hyphens rest)
        ∧ String.length (Descriptor.name d) = String.length id
        ∧ ∀ n, String.get (S n) (Descriptor.name d)
               = (λ c, if is_hyphen c then " "%char else c)
                   <$> String.get (S n) id.
Proof.
  intros Hentry. exists (builtinDescriptor config (id, serverConfig)).
  split.
  - rewrite getAllServers_app. rewrite lookup_app_l.
    + by apply list_lookup_fmap_Some_2.
    + rewrite length_fmap. by eapply lookup_lt_Some.
  - simpl. split; [done|]. split; [done|].
    split; [by rewrite first_then_rest|]. split; [done|].
    intros c rest -> Hc. rewrite humanize_ascii by done.
    split; [done|]. unfold replace_hyphens. simpl.
    split; [by rewrite string_map_length|].
    intros n. apply string_map_get.
Qed.

Lemma builtin_name_is_humanized_id_witness :
  (builtinServers sample_registry !! 0 = Some ("web-search", search_server)
   ∧ "web-search" = String "w" "eb-search"
   ∧ is_ascii "w" = true
   ∧ builtinServers accented_registry !! 0 = Some ("élan-x", files_server))
  ∧ (∃ d,
       getAllServers sample_registry sample_overlay !! 0 = Some d
       ∧ Descriptor.name d = "Web search")
  ∧ ∃ d,
      getAllServers accented_registry sample_overlay !! 0 = Some d
      ∧ Descriptor.name d = "Élan x".
Proof.
  split; [by repeat split|]. split.
  - destruct (builtin_name_is_humanized_id sample_registry sample_overlay 0
                "web-search" search_server eq_refl)
      as (d & Hd & _ & _ & _ & _ & Hascii).
    destruct (Hascii "w"%char "eb-search" eq_refl eq_refl) as (Hname & _).
    exists d. split; [exact Hd | exact Hname].
  - destruct (builtin_name_is_humanized_id accented_registry sample_overlay 0
                "élan-x" files_server eq_refl)
      as (d & Hd & _ & _ & _ & Hname & _).
    exists d. split; [exact Hd | exact Hname].
Defined.

(** C3 (as stated) fails.  A built-in record that carries a name is still
    listed under its humanized identifier, and a leading hyphen of an
    identifier is kept rather than replaced. *)
Lemma builtin_explicit_name_not_used :
  (builtinServers sample_registry !! 0 = Some ("web-search", search_server)
   ∧ Descriptor.name <$> getAllServers sample_registry sample_overlay !! 0
     = Some "Web search"
   ∧ spec_display_name "web-search" search_server = "Search"
   ∧ Descriptor.name <$> getAllServers sample_registry sample_overlay !! 0
     ≠ Some (spec_display_name "web-search" search_server))
  ∧ (builtinServers dashed_registry !! 0 = Some ("-x", files_server)
     ∧ Descriptor.name <$> getAllServers dashed_registry sample_overlay !! 0
       = Some "-x"
     ∧ spec_display_name "-x" files_server = " x"
     ∧ Descriptor.name <$> getAllServers dashed_registry sample_overlay !! 0
       ≠ Some (spec_display_name "-x" files_server)).
Proof. repeat split; discriminate. Qed.



(** ** Toggle *)

Lemma setter_heeds (e : gmap string bool) id :
  id ≠ "__proto__" ∨ is_Some (e !! id) → setter_ignores e id = false.
Proof.
  intros Hid. destruct (setter_ignores e id) eqn:E; [|done].
  apply setter_ignores_spec in E as [-> Hnone].
  destruct Hid as [?|[flag Hflag]]; congruence.
Qed.

(** C5 (a defect of the code).  The toggle of [__proto__], when [enabled]
    has no own entry of that name, negates nothing: the assignment of line
    138 goes to the setter of the prototype, the overlay is saved as it was
    loaded, and the answer carries the prototype object in place of the
    new state. *)
Theorem toggle_proto_is_ignored registry w :
  enabled (overlay registry w) !! "__proto__" = None →
  toggleRoute registry "__proto__" w
  = ({| payload := ToggledObject "__proto__"; status := 200 |},
     {| disk := File (Json (overlay registry w));
        saved := overlay registry w :: saved w |}).
Proof.
  intros Hnone. rewrite toggleRoute_run. cbv zeta.
  assert (setter_ignores (enabled (overlay registry w)) "__proto__" = true)
    as -> by (by apply setter_ignores_spec).
  done.
Qed.

Lemma toggle_proto_is_ignored_witness :
  enabled (overlay sample_registry sample_world) !! "__proto__" = None
  ∧ toggleRoute sample_registry "__proto__" sample_world
    = (ok (ToggledObject "__proto__"), written sample_overlay sample_world).
Proof.
  split; [reflexivity|].
  exact (toggle_proto_is_ignored sample_registry sample_world eq_refl).
Defined.

(** X17. For every identifier but [__proto__], and for [__proto__] too when
    [enabled] has an own entry of that name, [Toggle(id)] stores under [id]
    the negation of the identifier's effective state (enabled when
    [enabled] has no entry), keeps [custom] and every other entry of
    [enabled], saves that overlay and answers [{success: true, id,
    enabled}] with the new state.  There is no existence check: an
    identifier that nothing knows gets the entry [false]. *)
Theorem toggle_flips_and_saves registry id w :
  let config := overlay registry w in
  let current := match enabled config !! id with
                 | Some flag => flag
                 | None => true
                 end in
  id ≠ "__proto__" ∨ is_Some (enabled config !! id) →
  ∃ config',
    toggleRoute registry id w
    = ({| payload := Toggled id (Some (negb current)); status := 200 |},
       {| disk := File (Json config'); saved := config' :: saved w |})
    ∧ enabled config' !! id = Some (negb current)
    ∧ custom config' = custom config
    ∧ (∀ other, other ≠ id →
                enabled config' !! other = enabled config !! other)
    ∧ (enabled config !! id = None → enabled config' !! id = Some false).
Proof.
  cbv zeta. intros Hid. eexists. split.
  - rewrite toggleRoute_run. cbv zeta. by rewrite setter_heeds.
  - simpl. split; [apply lookup_insert_eq|]. split; [done|]. split.
    + intros other Hne. by apply lookup_insert_ne.
    + intros Hnone. rewrite lookup_insert_eq. unfold effective.
      by rewrite Hnone.
Qed.

Lemma toggle_flips_and_saves_witness :
  ("web-search" ≠ "__proto__" ∧ "file-system" ≠ "web-search")
  ∧ ∃ config',
      toggleRoute sample_registry "web-search" sample_world
      = (ok (Toggled "web-search" (Some true)), written config' sample_world)
      ∧ enabled config' !! "file-system" = None.
Proof.
  split; [split; discriminate|].
  destruct (toggle_flips_and_saves sample_registry "web-search" sample_world)
    as (config' & Hrun & _ & _ & Hother & _); [by left|].
  exists config'. split; [exact Hrun|].
  rewrite (Hother "file-system"); [reflexivity | discriminate].
Defined.

(** C8. Two toggles of the same identifier in a row, the second one
    reading what the first one saved, bring its effective state back to
    what it was. *)
Theorem toggle_twice_restores registry id w :
  let w1 := (toggleRoute registry id w).2 in
  let w2 := (toggleRoute registry id w1).2 in
  effective (overlay registry w2) id = effective (overlay registry w) id.
Proof.
  cbv zeta. rewrite !toggleRoute_run. cbv zeta.
  destruct (setter_ignores (enabled (overlay registry w)) id) eqn:E;
    cbn [snd]; rewrite overlay_written.
  - by rewrite E.
  - cbn [enabled]. rewrite setter_heeds by (right; by rewrite lookup_insert_eq).
    cbn [snd]. rewrite overlay_written. unfold effective at 1 2. simpl.
    rewrite !lookup_insert_eq. simpl. apply negb_involutive.
Qed.

(** C9 (a defect of the code).  [__proto__] is an identifier that neither
    registry knows and that has no entry in [enabled], and its toggle is
    answered with success; yet no entry [enabled[id] = false] is saved and
    the answer does not carry [enabled: false]: the overlay written is the
    default overlay, in which the identifier still counts as enabled. *)
Theorem toggle_unknown_proto_leaves_no_entry :
  let id := "__proto__" in
  let out := toggleRoute sample_registry id fresh in
  (id ∉ JsObject.keys (builtinServers sample_registry))
  ∧ (id ∉ JsObject.keys (custom (overlay sample_registry fresh)))
  ∧ enabled (overlay sample_registry fresh) !! id = None
  ∧ out.1 = {| payload := ToggledObject id; status := 200 |}
  ∧ out.1 ≠ {| payload := Toggled id (Some false); status := 200 |}
  ∧ out.2 = written (defaultConfig sample_registry) fresh
  ∧ enabled (overlay sample_registry out.2) !! id = None
  ∧ effective (overlay sample_registry out.2) id = true.
Proof.
  cbv zeta.
  assert ("__proto__" ∉ JsObject.keys (builtinServers sample_registry)) as Hb
    by (by apply (bool_decide_unpack _)).
  assert ("__proto__"
          ∉ JsObject.keys (custom (overlay sample_registry fresh))) as Hc
    by (by apply (bool_decide_unpack _)).
  by repeat split.
Qed.

(** ** Delete *)

Lemma remove_filter {V} k (o : JsObject.t V) :
  JsObject.remove k o = filter (λ entry, entry.1 ≠ k) o.
Proof.
  induction o as [|[k' v'] o IH]; cbn [JsObject.remove]; [done|].
  rewrite filter_cons. cbn [fst]. destruct (String.eqb_spec k k') as [->|Hne].
  - by rewrite decide_False by (intros Hc; by apply Hc).
  - rewrite decide_True by congruence. by rewrite IH.
Qed.

Lemma elem_of_set {V} k v (o : JsObject.t V) entry :
  entry ∈ JsObject.set k v o → entry = (k, v) ∨ entry ∈ o.
Proof.
  unfold JsObject.set. destruct (JsObject.has k o).
  - induction o as [|[k' v'] o IH]; cbn [JsObject.replace]; [by right|].
    destruct (String.eqb_spec k k') as [->|Hne]; rewrite !elem_of_cons.
    + intros [->|?]; auto.
    + intros [->|?]; auto. destruct IH; auto.
  - destruct (JsObject.array_index k) as [n|].
    + induction o as [|[k' v'] o IH]; cbn [JsObject.insert_index].
      * rewrite elem_of_cons. tauto.
      * destruct (JsObject.array_index k') as [m|]; [destruct (m <? n)%N|];
          rewrite !elem_of_cons; tauto.
    + rewrite elem_of_app, elem_of_cons, elem_of_nil. tauto.
Qed.

Lemma customRecord_variant type body :
  variant_fields_only (customRecord type body).
Proof.
  unfold customRecord, variant_fields_only.
  destruct (String.eqb type "http"); simpl; auto.
Qed.

(** No built-in identifier is a key of [custom] in a reachable world. *)
Lemma reachable_custom_not_builtin {runtime : Runtime} registry fetch w :
  reachable registry fetch w →
  ∀ id, id ∈ JsObject.keys (builtinServers registry) →
        JsObject.get id (custom (overlay registry w)) = None.
Proof.
  apply (reachable_overlay_ind registry fetch
           (λ config, ∀ id, id ∈ JsObject.keys (builtinServers registry) →
                            JsObject.get id (custom config) = None)).
  - done.
  - intros config config' IH Hmut id Hid.
    destruct Hmut as [k c|k c Hhas|k type body c _ _ _ _ _ _ Hfresh _];
      cbn [custom].
    + by apply IH.
    + destruct (decide (k = id)) as [->|Hne].
      * apply JsObjectFacts.get_remove_eq.
      * rewrite JsObjectFacts.get_remove_ne by done. by apply IH.
    + rewrite JsObjectFacts.get_set_ne; [by apply IH|].
      intros ->. apply JsObjectFacts.has_keys in Hid. congruence.
Qed.

(** Every custom entry of a reachable world has the fields of its variant. *)
Lemma reachable_custom_variants {runtime : Runtime} registry fetch w :
  reachable registry fetch w →
  ∀ entry, entry ∈ custom (overlay registry w) → variant_fields_only entry.2.
Proof.
  apply (reachable_overlay_ind registry fetch
           (λ config, ∀ entry, entry ∈ custom config →
                               variant_fields_only entry.2)).
  - intros entry Hin. by apply elem_of_nil in Hin.
  - intros config config' IH Hmut entry.
    destruct Hmut as [k c|k c Hhas|k type body c]; cbn [custom].
    + apply IH.
    + rewrite remove_filter, list_elem_of_filter. intros [_ Hin]. by apply IH.
    + intros Hin. apply elem_of_set in Hin as [->|Hin]; [|by apply IH].
      apply customRecord_variant.
Qed.

Lemma remove_absent {V} k (o : JsObject.t V) :
  JsObject.has k o = false → JsObject.remove k o = o.
Proof.
  intros Hfresh. apply JsObjectFacts.has_false_get in Hfresh.
  induction o as [|[k' v'] o IH]; simpl in *; [done|].
  destruct (String.eqb k k'); [done|]. by rewrite IH.
Qed.

(** C4 (a defect of the code).  [constructor] is not a key of [custom], yet
    [DELETE /api/mcp-servers/constructor] is not refused: the test of line
    220 finds the member that every object inherits, and the handler
    saves the overlay and answers [{success: true, id}] with status 200. *)
Theorem delete_constructor_not_refused :
  let out := deleteRoute sample_registry "constructor" sample_world in
  ("constructor" ∉ JsObject.keys (custom (overlay sample_registry sample_world)))
  ∧ out.1 = {| payload := Done "constructor"; status := 200 |}
  ∧ out.2 = written {| enabled := delete "constructor" (enabled sample_overlay);
                       custom := custom sample_overlay |} sample_world
  ∧ out ≠ ({| payload := Failure "Cannot delete built-in MCP servers";
              status := 400 |}, sample_world).
Proof.
  cbv zeta. split; [by apply (bool_decide_unpack _)|]. by repeat split.
Qed.

(** X18. [Delete(id)] answers status 400 with the error "Cannot delete
    built-in MCP servers", and changes nothing, exactly when [id] is
    neither a key of [custom] nor a name that objects inherit; for a key
    of [custom] it drops [id] from [custom] and from [enabled], saves that
    overlay and answers [{success: true, id}].  In a world the handler has
    produced no built-in identifier is a key of [custom]. *)
Theorem delete_only_custom {runtime : Runtime} registry fetch id w :
  let config := overlay registry w in
  ((id ∉ JsObject.keys (custom config)) ∧ inherited id = false
   ↔ deleteRoute registry id w
     = ({| payload := Failure "Cannot delete built-in MCP servers";
           status := 400 |}, w))
  ∧ (id ∈ JsObject.keys (custom config) →
     ∃ config',
       deleteRoute registry id w
       = ({| payload := Done id; status := 200 |},
          {| disk := File (Json config'); saved := config' :: saved w |})
       ∧ custom config' = filter (λ entry, entry.1 ≠ id) (custom config)
       ∧ JsObject.get id (custom config') = None
       ∧ enabled config' !! id = None
       ∧ ∀ other, other ≠ id →
           JsObject.get other (custom config') = JsObject.get other (custom config)
           ∧ enabled config' !! other = enabled config !! other)
  ∧ (reachable registry fetch w →
     id ∈ JsObject.keys (builtinServers registry) →
     id ∉ JsObject.keys (custom config)).
Proof.
  cbv zeta. rewrite deleteRoute_run. cbv zeta. unfold truthy.
  destruct (JsObject.has id (custom (overlay registry w))) eqn:Hhas.
  - apply JsObjectFacts.has_keys in Hhas as Hin. simpl orb. cbv iota.
    split; [|split].
    + split; [by intros [? _] | discriminate].
    + intros _. eexists. split; [reflexivity|]. cbn [custom enabled].
      split; [apply remove_filter|].
      split; [apply JsObjectFacts.get_remove_eq|].
      split; [apply lookup_delete_eq|].
      intros other Hne. split.
      * by apply JsObjectFacts.get_remove_ne.
      * by apply lookup_delete_ne.
    + intros Hreach Hbuiltin.
      apply JsObjectFacts.get_None_keys.
      by eapply reachable_custom_not_builtin.
  - apply JsObjectFacts.has_false_get, JsObjectFacts.get_None_keys in Hhas.
    simpl orb. split; [|split].
    + destruct (inherited id); cbv iota.
      * split; [by intros [_ ?] | discriminate].
      * by split.
    + contradiction.
    + done.
Qed.

Lemma created_world_reachable : reachable sample_registry offline created_world.
Proof. apply rtc_once. apply serves_request. Qed.

Lemma delete_only_custom_witness :
  ("my-tool" ∈ JsObject.keys (custom (overlay sample_registry created_world))
   ∧ reachable sample_registry offline created_world
   ∧ "web-search" ∈ JsObject.keys (builtinServers sample_registry)
   ∧ inherited "web-search" = false)
  ∧ (∃ config',
       deleteRoute sample_registry "my-tool" created_world
       = (ok (Done "my-tool"), written config' created_world)
       ∧ JsObject.get "my-tool" (custom config') = None)
  ∧ deleteRoute sample_registry "web-search" created_world
    = (failed 400 "Cannot delete built-in MCP servers", created_world).
Proof.
  assert ("my-tool"
          ∈ JsObject.keys (custom (overlay sample_registry created_world)))
    as Hcustom by (by apply (bool_decide_unpack _)).
  assert ("web-search" ∈ JsObject.keys (builtinServers sample_registry))
    as Hbuiltin by (by apply (bool_decide_unpack _)).
  split; [by auto using created_world_reachable|]. split.
  - destruct (delete_only_custom sample_registry offline "my-tool"
                created_world) as (_ & Hdelete & _).
    destruct (Hdelete Hcustom) as (config' & Hrun & _ & Hgone & _).
    exists config'. by split.
  - destruct (delete_only_custom sample_registry offline "web-search"
                created_world) as (Hrefuse & _ & Hnever).
    apply Hrefuse. split; [|done].
    apply Hnever; [apply created_world_reachable | exact Hbuiltin].
Defined.

(** ** Connectivity probe *)


Lemma testRoute_run registry fetch id w :
  testRoute registry fetch id w
  = (match findServer registry (overlay registry w) id with
     | NotFound => failed 404 "Server not found"
     | ServerRecord serverConfig => probe fetch serverConfig
     | PrototypeMember =>
         ok (Tested (Some "Stdio server configuration validated"))
     end, w).
Proof.
  unfold testRoute, mbind, M_bind. rewrite loadMCPConfig_overlay.
  by destruct (findServer _ _ _).
Qed.

Lemma probe_status fetch serverConfig : status (probe fetch serverConfig) = 200%N.
Proof.
  unfold probe. destruct (MCPServerConfig.is_http serverConfig); [|done].
  destruct (fetch _ _) as [code|[message|]]; [|done..].
  by destruct (response_ok code || (code =? 404)%N || (code =? 405)%N).
Qed.


(** C6 (a defect of the code).  [constructor] is found in neither registry,
    yet [POST /api/mcp-servers/constructor/test] is not answered with the
    not-found failure: line 159 finds the member that every object
    inherits, which has no [type], and the handler answers the success of
    a stdio server with status 200. *)
Theorem probe_constructor_not_missing :
  let out := testRoute sample_registry offline "constructor" sample_world in
  ("constructor" ∉ JsObject.keys (builtinServers sample_registry))
  ∧ ("constructor"
     ∉ JsObject.keys (custom (overlay sample_registry sample_world)))
  ∧ out = ({| payload := Tested (Some "Stdio server configuration validated");
              status := 200 |}, sample_world)
  ∧ out ≠ ({| payload := Failure "Server not found"; status := 404 |},
           sample_world).
Proof.
  cbv zeta. split; [by apply (bool_decide_unpack _)|].
  split; [by apply (bool_decide_unpack _)|]. by split.
Qed.



(** ** Create *)

Lemma create_decision registry body w :
  let config := overlay registry w in
  (create_refused registry config body
   ∧ ∃ error, createRoute registry body w = (failed 400 error, w))
  ∨ (¬ create_refused registry config body
     ∧ ∃ id type,
         Body.id body = Some id
         ∧ Body.type body = Some type
         ∧ valid_id id = true
         ∧ (type = "http" → falsy (Body.url body) = false)
         ∧ (type = "stdio" → falsy (Body.command body) = false)
         ∧ createRoute registry body w
           = (ok (Done id),
              written {| enabled := <[id := true]> (enabled config);
                         custom := JsObject.set id (customRecord type body)
                                     (custom config) |} w)).
Proof.
  cbv zeta. rewrite createRoute_run. cbv zeta.
  unfold create_refused, create_rejected.
  destruct (falsy (Body.id body)) eqn:Eid; simpl orb; cbv iota.
  { left. split; [auto | by eexists]. }
  destruct (falsy (Body.type body)) eqn:Etype; cbv iota.
  { left. split; [auto | by eexists]. }
  apply falsy_false in Eid as (id & Hid & _).
  apply falsy_false in Etype as (type & Htype & _).
  rewrite Hid, Htype. simpl default.
  destruct (String.eqb type "http" && falsy (Body.url body)) eqn:Eurl.
  { left. apply andb_true_iff in Eurl as [->%String.eqb_eq Hurl].
    split; [left; auto 6 | by eexists]. }
  destruct (String.eqb type "stdio" && falsy (Body.command body)) eqn:Ecmd.
  { left. apply andb_true_iff in Ecmd as [->%String.eqb_eq Hcmd].
    split; [left; auto 6 | by eexists]. }
  destruct (valid_id id) eqn:Evalid; simpl negb; cbv iota.
  2:{ left. split; [|by eexists]. left. do 4 right. left. eauto. }
  unfold truthy.
  destruct (inherited id) eqn:Hinherited.
  { left. rewrite !orb_true_r. split; [|by eexists]. right. eauto. }
  rewrite !orb_false_r.
  destruct (JsObject.has id (builtinServers registry)) eqn:Hb; simpl orb;
    cbv iota.
  { left. split; [|by eexists]. left. do 5 right. exists id.
    split; [done|]. left. by apply JsObjectFacts.has_keys. }
  destruct (JsObject.has id (custom (overlay registry w))) eqn:Hc; cbv iota.
  { left. split; [|by eexists]. left. do 5 right. exists id.
    split; [done|]. right. by apply JsObjectFacts.has_keys. }
  right. split.
  - intros [[H|[H|[[H1 H2]|[[H1 H2]|[(i & H1 & H2)|(i & H1 & H2)]]]]]
           |(i & H1 & H2)];
      try congruence.
    + assert (type = "http") as -> by congruence.
      simpl in Eurl. congruence.
    + assert (type = "stdio") as -> by congruence.
      simpl in Ecmd. congruence.
    + assert (i = id) as -> by congruence.
      destruct H2 as [H2|H2]; apply JsObjectFacts.has_keys in H2; congruence.
  - exists id, type. repeat split; try done.
    + intros ->. simpl in Eurl. done.
    + intros ->. simpl in Ecmd. done.
Qed.

(** C1 (a defect of the code).  The request [{id: "constructor", type:
    "http", url: "https://x"}] is none of those the claim lists: [id] and
    [type] are there, the [url] is there, the identifier matches
    [a-z0-9-]+ and is no built-in or custom identifier.  Yet on a fresh
    installation [POST /api/mcp-servers] answers it with status 400, "MCP
    server with this ID already exists", and saves nothing: the check of
    line 302 finds the [constructor] that every object inherits. *)
Theorem create_constructor_refused :
  let out := createRoute sample_registry constructor_body fresh in
  ¬ create_rejected sample_registry (overlay sample_registry fresh)
      constructor_body
  ∧ out = ({| payload := Failure "MCP server with this ID already exists";
              status := 400 |}, fresh)
  ∧ out.1 ≠ {| payload := Done "constructor"; status := 200 |}
  ∧ JsObject.get "constructor"
      (custom (overlay sample_registry out.2)) = None.
Proof.
  cbv zeta. split; [|by repeat split].
  intros [H|[H|[[H1 H2]|[[H1 H2]|[(i & H1 & H2)|(i & H1 & H2)]]]]];
    try discriminate.
  - injection H1 as <-. discriminate.
  - injection H1 as <-. destruct H2 as [H2|H2]; revert H2;
      by apply (bool_decide_unpack _).
Qed.

(** X20. [Create] answers status 400 and leaves the world as it is (no
    save) exactly when the request is one of those [create_refused]
    lists: [id] or [type] missing, [type] http without [url], [type] stdio
    without [command], [id] outside [a-z0-9-]+, [id] a built-in or custom
    identifier, or [id] the name of a member that every object inherits.
    Every other request saves the overlay in which [custom] has under [id]
    the record [{type: "http", name, url, headers}] of the request when
    [type] is http and [{type: "stdio", name, command, args, env}] of the
    request for any other [type], [enabled[id]] is [true] and all other
    entries are as they were, and answers [{success: true, id}]. *)
Theorem create_validates_then_inserts registry body w :
  let config := overlay registry w in
  (create_refused registry config body
   ↔ ∃ error,
       createRoute registry body w
       = ({| payload := Failure error; status := 400 |}, w))
  ∧ (¬ create_refused registry config body →
     ∃ id type config',
       Body.id body = Some id
       ∧ Body.type body = Some type
       ∧ createRoute registry body w
         = ({| payload := Done id; status := 200 |},
            {| disk := File (Json config'); saved := config' :: saved w |})
       ∧ JsObject.get id (custom config')
         = Some (if String.eqb type "http" then
                   {| MCPServerConfig.type := "http";
                      MCPServerConfig.name := Body.name body;
                      MCPServerConfig.url := Body.url body;
                      MCPServerConfig.headers := Body.headers body;
                      MCPServerConfig.command := None;
                      MCPServerConfig.args := None;
                      MCPServerConfig.env := None |}
                 else
                   {| MCPServerConfig.type := "stdio";
                      MCPServerConfig.name := Body.name body;
                      MCPServerConfig.url := None;
                      MCPServerConfig.headers := None;
                      MCPServerConfig.command := Body.command body;
                      MCPServerConfig.args := Body.args body;
                      MCPServerConfig.env := Body.env body |})
       ∧ enabled config' !! id = Some true
       ∧ ∀ other, other ≠ id →
           JsObject.get other (custom config')
           = JsObject.get other (custom config)
           ∧ enabled config' !! other = enabled config !! other).
Proof.
  cbv zeta.
  destruct (create_decision registry body w)
    as [[Hrej Hrun]|[Hok (id & type & Hid & Htype & _ & _ & _ & Hrun)]].
  - split; [by split | contradiction].
  - split.
    + split; [contradiction|]. intros [error Herr]. rewrite Hrun in Herr.
      discriminate.
    + intros _. eexists id, type, _.
      split; [done|]. split; [done|]. split; [exact Hrun|]. cbn [custom enabled].
      split; [apply JsObjectFacts.get_set_eq|].
      split; [apply lookup_insert_eq|].
      intros other Hne. split.
      * by apply JsObjectFacts.get_set_ne.
      * by apply lookup_insert_ne.
Qed.

Lemma sample_body_not_refused :
  ¬ create_refused sample_registry (overlay sample_registry fresh) sample_body.
Proof.
  intros [[H|[H|[[H1 H2]|[[H1 H2]|[(i & H1 & H2)|(i & H1 & H2)]]]]]
         |(i & H1 & H2)];
    try discriminate.
  - injection H1 as <-. discriminate.
  - injection H1 as <-. destruct H2 as [H2|H2]; revert H2;
      by apply (bool_decide_unpack _).
  - injection H1 as <-. discriminate.
Defined.

Lemma create_validates_then_inserts_witness :
  (¬ create_refused sample_registry (overlay sample_registry fresh) sample_body
   ∧ create_refused sample_registry (overlay sample_registry fresh)
       shouting_body
   ∧ create_refused sample_registry (overlay sample_registry fresh)
       constructor_body)
  ∧ (∃ config',
       createRoute sample_registry sample_body fresh
       = (ok (Done "my-tool"), written config' fresh)
       ∧ JsObject.get "my-tool" (custom config')
         = Some {| MCPServerConfig.type := "http";
                   MCPServerConfig.name := None;
                   MCPServerConfig.url := Some "https://x";
                   MCPServerConfig.headers := None;
                   MCPServerConfig.command := None;
                   MCPServerConfig.args := None;
                   MCPServerConfig.env := None |}
       ∧ enabled config' !! "my-tool" = Some true)
  ∧ (∃ error,
       createRoute sample_registry shouting_body fresh = (failed 400 error, fresh))
  ∧ ∃ error,
      createRoute sample_registry constructor_body fresh
      = (failed 400 error, fresh).
Proof.
  assert (create_refused sample_registry (overlay sample_registry fresh)
            shouting_body) as Hbad.
  { left. do 4 right. left. exists "My_Tool". by split. }
  assert (create_refused sample_registry (overlay sample_registry fresh)
            constructor_body) as Hinherited.
  { right. exists "constructor". by split. }
  split; [by repeat split; try exact sample_body_not_refused|].
  split; [|split].
  - destruct (create_validates_then_inserts sample_registry sample_body fresh)
      as [_ Hinsert].
    destruct (Hinsert sample_body_not_refused)
      as (id & type & config' & Hid & Htype & Hrun & Hget & Henabled & _).
    injection Hid as <-. injection Htype as <-. exists config'. by split.
  - destruct (create_validates_then_inserts sample_registry shouting_body fresh)
      as [Hreject _].
    by apply Hreject.
  - destruct (create_validates_then_inserts sample_registry constructor_body
                fresh) as [Hreject _].
    by apply Hreject.
Defined.

(** C10. The record a successful [Create] stores has the fields of one
    variant only.  For [type] http it is [{type, name, url, headers}] of
    the request, with a [url], and whatever [command], [args] or [env] the
    request carried is dropped; for [type] stdio it is [{type, name,
    command, args, env}], with a [command], and [url] and [headers] are
    dropped.  Hence every custom entry of every overlay the handler
    produces from a fresh installation has the fields of its own type tag
    and no others. *)
Theorem create_stores_one_variant {runtime : Runtime} registry fetch :
  (∀ body w id,
      (createRoute registry body w).1 = ok (Done id) →
      ∃ config' record,
        (createRoute registry body w).2
        = {| disk := File (Json config'); saved := config' :: saved w |}
        ∧ JsObject.get id (custom config') = Some record
        ∧ variant_fields_only record
        ∧ (Body.type body = Some "http" →
           falsy (Body.url body) = false
           ∧ record
             = {| MCPServerConfig.type := "http";
                  MCPServerConfig.name := Body.name body;
                  MCPServerConfig.url := Body.url body;
                  MCPServerConfig.headers := Body.headers body;
                  MCPServerConfig.command := None;
                  MCPServerConfig.args := None;
                  MCPServerConfig.env := None |})
        ∧ (Body.type body = Some "stdio" →
           falsy (Body.command body) = false
           ∧ record
             = {| MCPServerConfig.type := "stdio";
                  MCPServerConfig.name := Body.name body;
                  MCPServerConfig.url := None;
                  MCPServerConfig.headers := None;
                  MCPServerConfig.command := Body.command body;
                  MCPServerConfig.args := Body.args body;
                  MCPServerConfig.env := Body.env body |}))
  ∧ (∀ w, reachable registry fetch w →
          ∀ entry, entry ∈ custom (overlay registry w) →
                   variant_fields_only entry.2).
Proof.
  split; [|apply reachable_custom_variants].
  intros body w id Hdone.
  destruct (create_decision registry body w)
    as [[_ [error Hrun]]|[_ (id' & type & Hid & Htype & _ & Hurl & Hcmd & Hrun)]];
    rewrite Hrun in Hdone |- *; [discriminate|].
  injection Hdone as <-.
  eexists _, (customRecord type body). split; [reflexivity|]. cbn [custom].
  split; [apply JsObjectFacts.get_set_eq|].
  split; [apply customRecord_variant|].
  split; intros Hty; rewrite Htype in Hty; injection Hty as ->; auto.
Qed.

Lemma create_stores_one_variant_witness :
  ((createRoute sample_registry sample_body fresh).1 = ok (Done "my-tool")
   ∧ Body.type sample_body = Some "http"
   ∧ (createRoute sample_registry stdio_body fresh).1 = ok (Done "runner")
   ∧ Body.type stdio_body = Some "stdio"
   ∧ reachable sample_registry offline created_world)
  ∧ (∃ config',
       (createRoute sample_registry sample_body fresh).2 = written config' fresh
       ∧ JsObject.get "my-tool" (custom config')
         = Some {| MCPServerConfig.type := "http";
                   MCPServerConfig.name := None;
                   MCPServerConfig.url := Some "https://x";
                   MCPServerConfig.headers := None;
                   MCPServerConfig.command := None;
                   MCPServerConfig.args := None;
                   MCPServerConfig.env := None |})
  ∧ (∃ config',
       (createRoute sample_registry stdio_body fresh).2 = written config' fresh
       ∧ JsObject.get "runner" (custom config')
         = Some {| MCPServerConfig.type := "stdio";
                   MCPServerConfig.name := Some "Runner";
                   MCPServerConfig.url := None;
                   MCPServerConfig.headers := None;
                   MCPServerConfig.command := Some "node";
                   MCPServerConfig.args := Some ["run.js"];
                   MCPServerConfig.env := None |})
  ∧ ∀ entry, entry ∈ custom (overlay sample_registry created_world) →
             variant_fields_only entry.2.
Proof.
  destruct (create_stores_one_variant sample_registry offline)
    as [Hstore Hreach].
  split; [by auto 6 using created_world_reachable|]. split; [|split].
  - destruct (Hstore sample_body fresh "my-tool" eq_refl)
      as (config' & record & Hrun & Hget & _ & Hhttp & _).
    destruct (Hhttp eq_refl) as [_ ->] in Hget.
    exists config'. by split.
  - destruct (Hstore stdio_body fresh "runner" eq_refl)
      as (config' & record & Hrun & Hget & _ & _ & Hstdio).
    destruct (Hstdio eq_refl) as [_ ->] in Hget.
    exists config'. by split.
  - apply Hreach. apply created_world_reachable.
Defined.

(** ** Routing *)

Section Routing.
Context {runtime : Runtime}.
Variable registry : gmap string (JsObject.t MCPServerConfig.t).
Variable fetch : option string → list (string * string) → FetchOutcome.

Lemma segment_app id suffix :
  string_forall (λ c, negb (is_slash c)) id = true →
  segment suffix = (EmptyString, suffix) →
  segment (id +:+ suffix) = (id, suffix).
Proof.
  intros Hid Hsuffix. induction id as [|c id IH]; simpl in *; [done|].
  apply andb_true_iff in Hid as [Hc Hid].
  destruct (is_slash c); [done|]. by rewrite IH.
Qed.

Lemma match_id_route_id_path id suffix :
  path_segment id →
  segment suffix = (EmptyString, suffix) →
  match_id_route suffix (id_path id suffix) = Some id.
Proof.
  intros [Hne Hid] Hsuffix. unfold match_id_route, id_path. simpl.
  change ("" +:+ id +:+ suffix) with (id +:+ suffix).
  rewrite segment_app by done. by rewrite Hne, String.eqb_refl.
Qed.

Lemma match_id_route_other id suffix suffix' :
  path_segment id →
  segment suffix = (EmptyString, suffix) →
  suffix ≠ suffix' →
  match_id_route suffix' (id_path id suffix) = None.
Proof.
  intros [Hne Hid] Hsuffix Hdiff. unfold match_id_route, id_path. simpl.
  change ("" +:+ id +:+ suffix) with (id +:+ suffix).
  rewrite segment_app by done.
  destruct (String.eqb_spec suffix suffix'); [done|].
  by rewrite andb_false_r.
Qed.

Lemma route_list req :
  method req = "GET" →
  handleMCPServerRoutes registry fetch req api_root
  = handled (listRoute registry).
Proof. unfold handleMCPServerRoutes. by intros ->. Qed.

Lemma route_create req :
  method req = "POST" →
  handleMCPServerRoutes registry fetch req api_root
  = handled (createRoute registry (json req)).
Proof. unfold handleMCPServerRoutes. by intros ->. Qed.

Lemma route_toggle req id :
  method req = "POST" → path_segment id →
  handleMCPServerRoutes registry fetch req (id_path id "/toggle")
  = handled (toggleRoute registry id).
Proof.
  intros Hm Hid. unfold handleMCPServerRoutes. rewrite Hm. cbv zeta.
  simpl andb. cbv iota. simpl (String.eqb "POST" "POST"). cbv iota.
  by rewrite match_id_route_id_path.
Qed.

Lemma route_test req id :
  method req = "POST" → path_segment id →
  handleMCPServerRoutes registry fetch req (id_path id "/test")
  = handled (testRoute registry fetch id).
Proof.
  intros Hm Hid. unfold handleMCPServerRoutes. rewrite Hm. cbv zeta.
  simpl andb. cbv iota. simpl (String.eqb "POST" "POST"). cbv iota.
  rewrite (match_id_route_other id "/test" "/toggle") by done.
  by rewrite match_id_route_id_path.
Qed.

Lemma route_delete req id :
  method req = "DELETE" → path_segment id →
  handleMCPServerRoutes registry fetch req (id_path id "")
  = handled (deleteRoute registry id).
Proof.
  intros Hm Hid. unfold handleMCPServerRoutes. rewrite Hm. cbv zeta.
  simpl andb. cbv iota. simpl (String.eqb "DELETE" _). cbv iota.
  by rewrite match_id_route_id_path.
Qed.

(** Any other verb is not handled. *)
Lemma route_not_handled req pathname w :
  method req ≠ "GET" → method req ≠ "POST" → method req ≠ "DELETE" →
  handleMCPServerRoutes registry fetch req pathname w = (None, w).
Proof.
  intros Hget Hpost Hdelete. unfold handleMCPServerRoutes.
  apply String.eqb_neq in Hget, Hpost, Hdelete.
  by rewrite Hget, Hpost, Hdelete.
Qed.

End Routing.

(** ** The handler as a whole *)

Lemma strip_prefix_app p s tail :
  strip_prefix p s = Some tail → s = p +:+ tail.
Proof.
  revert s. induction p as [|a p IH]; intros s; simpl.
  - by intros [= ->].
  - destruct s as [|b s]; [done|].
    destruct (Ascii.eqb_spec a b) as [->|]; [|done].
    intros H. by rewrite (IH _ H).
Qed.

Lemma segment_inv s seg rest :
  segment s = (seg, rest) →
  s = seg +:+ rest ∧ string_forall (λ c, negb (is_slash c)) seg = true.
Proof.
  revert seg rest. induction s as [|c s IH]; intros seg rest; simpl.
  - by intros [= <- <-].
  - destruct (is_slash c) eqn:Hc; [by intros [= <- <-]|].
    destruct (segment s) as [seg' rest'] eqn:Hs. intros [= <- <-].
    destruct (IH _ _ eq_refl) as [-> Hall]. simpl. by rewrite Hc.
Qed.

Lemma match_id_route_inv suffix pathname id :
  match_id_route suffix pathname = Some id →
  path_segment id ∧ pathname = id_path id suffix.
Proof.
  unfold match_id_route.
  destruct (strip_prefix _ pathname) as [tail|] eqn:Hp; [|done].
  apply strip_prefix_app in Hp as ->.
  destruct (segment tail) as [seg rest] eqn:Hs.
  apply segment_inv in Hs as [-> Hall].
  destruct (is_empty seg) eqn:He; simpl; [done|].
  destruct (String.eqb_spec rest suffix) as [->|]; [|done].
  intros [= ->]. by repeat split.
Qed.

Lemma handle_cases {runtime : Runtime} registry fetch req pathname w :
  let out := handleMCPServerRoutes registry fetch req pathname w in
  out = (None, w)
  ∨ (method req = "GET" ∧ pathname = api_root
     ∧ out = handled (listRoute registry) w)
  ∨ (method req = "POST"
     ∧ ∃ id, match_id_route "/toggle" pathname = Some id
             ∧ out = handled (toggleRoute registry id) w)
  ∨ (method req = "POST"
     ∧ ∃ id, match_id_route "/test" pathname = Some id
             ∧ out = handled (testRoute registry fetch id) w)
  ∨ (method req = "DELETE"
     ∧ ∃ id, match_id_route "" pathname = Some id
             ∧ out = handled (deleteRoute registry id) w)
  ∨ (method req = "POST" ∧ pathname = api_root
     ∧ out = handled (createRoute registry (json req)) w).
Proof.
  cbv zeta. unfold handleMCPServerRoutes. cbv zeta.
  destruct (String.eqb (method req) "GET" && String.eqb pathname api_root)
    eqn:Elist.
  { apply andb_true_iff in Elist as [Hm%String.eqb_eq Hp%String.eqb_eq].
    right. left. done. }
  destruct (String.eqb (method req) "POST") eqn:Epost.
  - apply String.eqb_eq in Epost.
    assert (String.eqb (method req) "DELETE" = false) as Edelete
      by (by rewrite Epost).
    destruct (match_id_route "/toggle" pathname) as [id|] eqn:Htoggle.
    { right. right. left. eauto. }
    destruct (match_id_route "/test" pathname) as [id|] eqn:Htest.
    { right. right. right. left. eauto. }
    rewrite Edelete. simpl andb.
    destruct (String.eqb_spec pathname api_root) as [Hroot|_]; [|by left].
    do 5 right. done.
  - destruct (String.eqb (method req) "DELETE") eqn:Edelete; [|by left].
    apply String.eqb_eq in Edelete.
    destruct (match_id_route "" pathname) as [id|] eqn:Hdelete; [|by left].
    do 4 right. left. eauto.
Qed.

Lemma handled_run (route : M Response) w :
  handled route w = (Some (route w).1, (route w).2).
Proof. unfold handled, mbind, M_bind, mret, M_ret. by destruct (route w). Qed.

Lemma listRoute_run {runtime : Runtime} registry w :
  listRoute registry w
  = (ok (ServerList (getAllServers registry (overlay registry w))), w).
Proof. unfold listRoute, mbind, M_bind. by rewrite loadMCPConfig_overlay. Qed.

Lemma createRoute_shape registry body w :
  (∃ error, createRoute registry body w = (failed 400 error, w))
  ∨ (∃ id config, createRoute registry body w = (ok (Done id), written config w)).
Proof.
  destruct (create_decision registry body w)
    as [[_ Hrun]|[_ (id & type & _ & _ & _ & _ & _ & Hrun)]]; eauto.
Qed.

(** X1. A request writes the overlay file at most once, and only when it is
    answered with a successful toggle or with [{success: true, id}] of a
    create or delete; the one toggle whose answer carries an object
    instead of a flag, that of [__proto__], writes the overlay it loaded.
    Listing, probing, a request that is not handled and every request
    answered with a failure leave the file as it was; in particular a
    [GET] never creates the file. *)
Theorem handler_writes_only_on_success {runtime : Runtime}
    registry fetch req pathname w :
  let out := handleMCPServerRoutes registry fetch req pathname w in
  (out.2 = w
   ∨ ∃ config id,
       out.2 = {| disk := File (Json config); saved := config :: saved w |}
       ∧ (out.1 = Some {| payload := Done id; status := 200 |}
          ∨ (∃ flag, out.1 = Some {| payload := Toggled id (Some flag);
                                     status := 200 |})
          ∨ (id = "__proto__"
             ∧ config = overlay registry w
             ∧ out.1 = Some {| payload := ToggledObject id; status := 200 |})))
  ∧ (method req = "GET" → out.2 = w)
  ∧ (out.1 = None → out.2 = w)
  ∧ (∀ response, out.1 = Some response →
                 success (payload response) = false → out.2 = w).
Proof.
  cbv zeta.
  assert (handleMCPServerRoutes registry fetch req pathname w = (None, w)
          ∨ (∃ response, handleMCPServerRoutes registry fetch req pathname w
                         = (Some response, w))
          ∨ (method req ≠ "GET"
             ∧ ∃ config id,
                 (handleMCPServerRoutes registry fetch req pathname w).2
                 = written config w
                 ∧ ((handleMCPServerRoutes registry fetch req pathname w).1
                    = Some (ok (Done id))
                    ∨ (∃ flag,
                        (handleMCPServerRoutes registry fetch req pathname w).1
                        = Some (ok (Toggled id (Some flag))))
                    ∨ (id = "__proto__"
                       ∧ config = overlay registry w
                       ∧ (handleMCPServerRoutes registry fetch req pathname w).1
                         = Some (ok (ToggledObject id))))))
    as Hcases.
  { destruct (handle_cases registry fetch req pathname w)
      as [->|[(_ & _ & ->)|[(Hm & id & _ & ->)|[(Hm & id & _ & ->)
          |[(Hm & id & _ & ->)|(Hm & _ & ->)]]]]]; rewrite ?handled_run.
    - by left.
    - rewrite listRoute_run. right. left. eauto.
    - rewrite toggleRoute_run. cbv zeta. right. right.
      split; [by rewrite Hm|].
      destruct (setter_ignores _ id) eqn:E; simpl.
      + apply setter_ignores_spec in E as [-> _]. eauto 10.
      + eauto 10.
    - rewrite testRoute_run. right. left. eauto.
    - rewrite deleteRoute_run. cbv zeta.
      destruct (truthy id _); simpl.
      + right. right. split; [by rewrite Hm|]. eauto 8.
      + right. left. eauto.
    - destruct (createRoute_shape registry (json req) w)
        as [[error ->]|(id & config & ->)]; simpl.
      + right. left. eauto.
      + right. right. split; [by rewrite Hm|]. eauto 8. }
  destruct Hcases as [->|[(response & ->)|(Hm & config & id & Hw & Hr)]];
    simpl.
  - by repeat split; auto.
  - by repeat split; auto.
  - split; [right; by exists config, id|]. split; [done|].
    split.
    + intros Hnone. destruct Hr as [Hr|[[flag Hr]|(_ & _ & Hr)]]; congruence.
    + intros response Hsome Hfail.
      destruct Hr as [Hr|[[flag Hr]|(_ & _ & Hr)]]; rewrite Hr in Hsome;
        injection Hsome as <-; done.
Qed.

Lemma handler_writes_only_on_success_witness :
  (method get_request = "GET"
   ∧ (handleMCPServerRoutes sample_registry offline create_request api_root
        created_world).1
     = Some (failed 400 "MCP server with this ID already exists"))
  ∧ (handleMCPServerRoutes sample_registry offline get_request api_root
       fresh).2 = fresh
  ∧ (handleMCPServerRoutes sample_registry offline create_request api_root
       created_world).2 = created_world.
Proof.
  split; [by split|]. split.
  - destruct (handler_writes_only_on_success sample_registry offline
                get_request api_root fresh) as (_ & Hget & _).
    by apply Hget.
  - destruct (handler_writes_only_on_success sample_registry offline
                create_request api_root created_world) as (_ & _ & _ & Hfail).
    by eapply Hfail.
Defined.

(** X2. The handler answers exactly five request shapes: [GET] and [POST]
    on [/api/mcp-servers], [POST] on [/api/mcp-servers/<id>/toggle] and
    [/api/mcp-servers/<id>/test], and [DELETE] on [/api/mcp-servers/<id>],
    where [<id>] is not empty and holds no slash.  Every other verb or path
    gets [undefined]. *)
Theorem handler_answers_exactly_the_routes {runtime : Runtime}
    registry fetch req pathname w :
  (handleMCPServerRoutes registry fetch req pathname w).1 ≠ None
  ↔ routed req pathname.
Proof.
  unfold routed. split.
  - intros Hsome.
    destruct (handle_cases registry fetch req pathname w)
      as [Hout|[(Hm & Hp & _)|[(Hm & id & Hmatch & _)|[(Hm & id & Hmatch & _)
          |[(Hm & id & Hmatch & _)|(Hm & Hp & _)]]]]].
    + by rewrite Hout in Hsome.
    + by left.
    + apply match_id_route_inv in Hmatch as [Hid ->]. right. left. eauto.
    + apply match_id_route_inv in Hmatch as [Hid ->]. right. left. eauto.
    + apply match_id_route_inv in Hmatch as [Hid ->]. right. right. left. eauto.
    + by do 3 right.
  - intros [[Hm ->]|[(Hm & id & Hid & [->| ->])|[(Hm & id & Hid & ->)|[Hm ->]]]].
    + by rewrite route_list, handled_run.
    + by rewrite route_toggle, handled_run.
    + by rewrite route_test, handled_run.
    + by rewrite route_delete, handled_run.
    + by rewrite route_create, handled_run.
Qed.

Lemma handler_answers_exactly_the_routes_witness :
  routed delete_request (id_path "my-tool" "")
  ∧ (handleMCPServerRoutes sample_registry offline delete_request
       (id_path "my-tool" "") fresh).1 ≠ None
  ∧ ¬ routed delete_request (id_path "my-tool" "/toggle").
Proof.
  assert (routed delete_request (id_path "my-tool" "")) as Hrouted.
  { right. right. left. split; [done|]. by exists "my-tool". }
  split; [exact Hrouted|]. split.
  - by apply (handler_answers_exactly_the_routes sample_registry offline).
  - intros Hr.
    apply (handler_answers_exactly_the_routes sample_registry offline
             delete_request (id_path "my-tool" "/toggle") fresh) in Hr.
    by apply Hr.
Defined.

Lemma plain_response_statuses (req : Request) (pathname : string) response :
  (status response = 200%N ∧ success (payload response) = true)
  ∨ (status response = 400%N ∧ success (payload response) = false) →
  (status response = 200%N ∨ status response = 400%N ∨ status response = 404%N)
  ∧ (status response ≠ 200%N → success (payload response) = false)
  ∧ (status response = 404%N
     ∨ (status response = 200%N ∧ success (payload response) = false) →
     method req = "POST"
     ∧ ∃ id, path_segment id ∧ pathname = id_path id "/test").
Proof.
  intros [[Hs Hp]|[Hs Hp]]; rewrite Hs, Hp.
  - split; [auto|]. split; [done|]. by intros [?|[_ ?]].
  - split; [auto|]. split; [done|]. by intros [?|[? _]].
Qed.

(** X3. A response has status 200, 400 or 404.  Status 400 and 404 always
    come with [{success: false}]; status 404 and a [{success: false}] under
    status 200 come from the probe route alone. *)
Theorem handler_statuses {runtime : Runtime}
    registry fetch req pathname w response :
  (handleMCPServerRoutes registry fetch req pathname w).1 = Some response →
  (status response = 200%N ∨ status response = 400%N ∨ status response = 404%N)
  ∧ (status response ≠ 200%N → success (payload response) = false)
  ∧ (status response = 404%N
     ∨ (status response = 200%N ∧ success (payload response) = false) →
     method req = "POST"
     ∧ ∃ id, path_segment id ∧ pathname = id_path id "/test").
Proof.
  intros Hout.
  destruct (handle_cases registry fetch req pathname w)
    as [Hrun|[(_ & _ & Hrun)|[(_ & id & _ & Hrun)|[(Hm & id & Hmatch & Hrun)
        |[(_ & id & _ & Hrun)|(_ & _ & Hrun)]]]]];
    rewrite Hrun, ?handled_run in Hout; simpl in Hout.
  - done.
  - rewrite listRoute_run in Hout. injection Hout as <-.
    apply plain_response_statuses. by left.
  - rewrite toggleRoute_run in Hout. cbv zeta in Hout.
    destruct (setter_ignores _ id); injection Hout as <-;
      apply plain_response_statuses; by left.
  - apply match_id_route_inv in Hmatch as [Hid ->].
    rewrite testRoute_run in Hout. injection Hout as <-.
    destruct (findServer _ _ _) as [sc| |]; simpl.
    + pose proof (probe_status fetch sc) as Hs. rewrite Hs.
      split; [auto|]. split; [done|]. eauto.
    + split; [auto|]. split; [done|]. eauto.
    + split; [auto|]. split; [done|]. eauto.
  - rewrite deleteRoute_run in Hout. cbv zeta in Hout.
    destruct (truthy id _); injection Hout as <-;
      apply plain_response_statuses; [by left | by right].
  - destruct (createRoute_shape registry (json req) w)
      as [[error Hc]|(id & config & Hc)]; rewrite Hc in Hout;
      injection Hout as <-; apply plain_response_statuses;
      [by right | by left].
Qed.

Lemma handler_statuses_witness :
  (handleMCPServerRoutes sample_registry offline create_request
     (id_path "ghost" "/test") fresh).1
  = Some (failed 404 "Server not found")
  ∧ method create_request = "POST".
Proof.
  split; [reflexivity|].
  destruct (handler_statuses sample_registry offline create_request
              (id_path "ghost" "/test") fresh
              (failed 404 "Server not found") eq_refl) as (_ & _ & Hprobe).
  apply Hprobe. by left.
Defined.

(** X4. Dispatch looks at the verb and at the shape of the path only: for
    any identifier that fits in a path segment, also one spelled "toggle"
    or "test", [POST <id>/toggle] runs the toggle, [POST <id>/test] the
    probe and [DELETE <id>] the delete.  The same paths under another verb
    are not handled: [POST <id>] is not, [DELETE <id>/toggle] and [DELETE
    <id>/test] are not, and under [GET] or any verb other than [POST] and
    [DELETE] none of the three paths is. *)
Theorem handler_dispatch {runtime : Runtime} registry fetch req id w :
  path_segment id →
  (method req = "POST" →
   handleMCPServerRoutes registry fetch req (id_path id "/toggle") w
   = handled (toggleRoute registry id) w
   ∧ handleMCPServerRoutes registry fetch req (id_path id "/test") w
     = handled (testRoute registry fetch id) w
   ∧ handleMCPServerRoutes registry fetch req (id_path id "") w = (None, w))
  ∧ (method req = "DELETE" →
     handleMCPServerRoutes registry fetch req (id_path id "") w
     = handled (deleteRoute registry id) w
     ∧ handleMCPServerRoutes registry fetch req (id_path id "/toggle") w
       = (None, w)
     ∧ handleMCPServerRoutes registry fetch req (id_path id "/test") w
       = (None, w))
  ∧ (method req ≠ "POST" → method req ≠ "DELETE" →
     handleMCPServerRoutes registry fetch req (id_path id "") w = (None, w)
     ∧ handleMCPServerRoutes registry fetch req (id_path id "/toggle") w
       = (None, w)
     ∧ handleMCPServerRoutes registry fetch req (id_path id "/test") w
       = (None, w)).
Proof.
  intros Hid.
  assert (∀ suffix, id_path id suffix ≠ api_root) as Hroot.
  { intros suffix Heq. destruct Hid as [Hne _].
    unfold id_path, api_root in Heq. simpl in Heq.
    injection Heq as Heq. by destruct id. }
  assert (∀ suffix k, suffix ≠ "" →
            match_id_route suffix (id_path id "") ≠ Some k) as Hplain.
  { intros suffix k Hne Hk. rewrite match_id_route_other in Hk; done. }
  assert (∀ suffix k, suffix ≠ "" →
            match_id_route "" (id_path id suffix) = Some k →
            segment suffix = (EmptyString, suffix) → False) as Hsuffixed.
  { intros suffix k Hne Hk Hseg. rewrite match_id_route_other in Hk; done. }
  split; [|split].
  - intros Hm. split; [|split].
    + by rewrite route_toggle.
    + by rewrite route_test.
    + destruct (handle_cases registry fetch req (id_path id "") w)
        as [Hrun|[(Hg & _)|[(_ & k & Hk & _)|[(_ & k & Hk & _)
            |[(Hd & _)|(_ & Hp & _)]]]]]; try congruence.
      all: by apply Hplain in Hk.
  - intros Hm. split; [|split].
    + by rewrite route_delete.
    + destruct (handle_cases registry fetch req (id_path id "/toggle") w)
        as [Hrun|[(Hg & _)|[(Hp & _)|[(Hp & _)
            |[(_ & k & Hk & _)|(Hp & _)]]]]]; try congruence.
      all: by apply Hsuffixed in Hk.
    + destruct (handle_cases registry fetch req (id_path id "/test") w)
        as [Hrun|[(Hg & _)|[(Hp & _)|[(Hp & _)
            |[(_ & k & Hk & _)|(Hp & _)]]]]]; try congruence.
      all: by apply Hsuffixed in Hk.
  - intros Hpost Hdelete.
    assert (∀ suffix,
              handleMCPServerRoutes registry fetch req (id_path id suffix) w
              = (None, w)) as Hnone.
    { intros suffix.
      destruct (handle_cases registry fetch req (id_path id suffix) w)
        as [Hrun|[(_ & Hp & _)|[(Hp & _)|[(Hp & _)
            |[(Hp & _)|(Hp & _)]]]]]; done. }
    by rewrite !Hnone.
Qed.

Lemma handler_dispatch_witness :
  (path_segment "toggle" ∧ method create_request = "POST"
   ∧ method get_request ≠ "POST" ∧ method get_request ≠ "DELETE")
  ∧ (handleMCPServerRoutes sample_registry offline create_request
       "/api/mcp-servers/toggle/toggle" sample_world).1
    = Some (ok (Toggled "toggle" (Some false)))
  ∧ handleMCPServerRoutes sample_registry offline create_request
      "/api/mcp-servers/toggle" sample_world
    = (None, sample_world)
  ∧ handleMCPServerRoutes sample_registry offline get_request
      "/api/mcp-servers/toggle/toggle" sample_world
    = (None, sample_world).
Proof.
  assert (path_segment "toggle") as Hid by done.
  assert (method get_request ≠ "POST") as Hpost' by done.
  assert (method get_request ≠ "DELETE") as Hdelete' by done.
  split; [by repeat split|].
  destruct (handler_dispatch sample_registry offline create_request "toggle"
              sample_world Hid) as (Hpost & _ & _).
  destruct (Hpost eq_refl) as (Htoggle & _ & Hplain).
  destruct (handler_dispatch sample_registry offline get_request "toggle"
              sample_world Hid) as (_ & _ & Hother).
  destruct (Hother Hpost' Hdelete') as (_ & Hget & _).
  split; [|split].
  - change "/api/mcp-servers/toggle/toggle" with (id_path "toggle" "/toggle").
    by rewrite Htoggle.
  - exact Hplain.
  - exact Hget.
Defined.

(** ** Objects, continued *)

Lemma insert_index_perm {V} n k v (o : JsObject.t V) :
  JsObject.insert_index n k v o ≡ₚ (k, v) :: o.
Proof.
  induction o as [|[k' v'] o IH]; cbn [JsObject.insert_index]; [done|].
  destruct (JsObject.array_index k') as [m|]; [destruct (m <? n)%N|]; try done.
  rewrite IH. apply Permutation_swap.
Qed.

Lemma set_fresh_perm {V} k v (o : JsObject.t V) :
  JsObject.has k o = false → JsObject.set k v o ≡ₚ (k, v) :: o.
Proof.
  intros Hfresh. unfold JsObject.set. rewrite Hfresh.
  destruct (JsObject.array_index k).
  - apply insert_index_perm.
  - symmetry. apply Permutation_cons_append.
Qed.

Lemma set_fresh_last {V} k v (o : JsObject.t V) :
  JsObject.has k o = false → JsObject.array_index k = None →
  JsObject.set k v o = o ++ [(k, v)].
Proof. intros Hfresh Hindex. unfold JsObject.set. by rewrite Hfresh, Hindex. Qed.

Lemma remove_fresh {V} k (o : JsObject.t V) :
  JsObject.get k o = None → JsObject.remove k o = o.
Proof.
  induction o as [|[k' v'] o IH]; simpl; [done|].
  destruct (String.eqb k k'); [done|]. intros H. by rewrite IH.
Qed.

Lemma remove_set_fresh {V} k v (o : JsObject.t V) :
  JsObject.has k o = false → JsObject.remove k (JsObject.set k v o) = o.
Proof.
  intros Hfresh. unfold JsObject.set. rewrite Hfresh.
  apply JsObjectFacts.has_false_get in Hfresh.
  destruct (JsObject.array_index k) as [n|].
  - induction o as [|[k' v'] o IH]; cbn [JsObject.insert_index].
    + simpl. by rewrite String.eqb_refl.
    + simpl in Hfresh. destruct (String.eqb k k') eqn:E; [done|].
      destruct (JsObject.array_index k') as [m|]; [destruct (m <? n)%N|];
        simpl; rewrite ?String.eqb_refl, ?E.
      * by rewrite IH.
      * by rewrite remove_fresh.
      * by rewrite remove_fresh.
  - induction o as [|[k' v'] o IH]; simpl.
    + by rewrite String.eqb_refl.
    + simpl in Hfresh. destruct (String.eqb k k') eqn:E; [done|].
      by rewrite IH.
Qed.

Lemma keys_remove {V} k (o : JsObject.t V) :
  JsObject.keys (JsObject.remove k o) = filter (λ k', k' ≠ k) (JsObject.keys o).
Proof.
  unfold JsObject.keys.
  induction o as [|[k' v'] o IH]; cbn [JsObject.remove fmap list_fmap]; [done|].
  rewrite filter_cons. cbn [fst].
  destruct (String.eqb_spec k k') as [->|Hne].
  - by rewrite decide_False by (intros Hc; by apply Hc).
  - rewrite decide_True by congruence. cbn [fmap list_fmap]. by rewrite IH.
Qed.

Lemma keys_set_fresh {V} k v (o : JsObject.t V) :
  JsObject.has k o = false →
  JsObject.keys (JsObject.set k v o) ≡ₚ k :: JsObject.keys o.
Proof.
  intros Hfresh. unfold JsObject.keys. by rewrite (set_fresh_perm k v o).
Qed.

(** Descriptors depend on [enabled] at their own identifier only. *)
Lemma builtinDescriptor_ext {runtime : Runtime} config config'
    (l : JsObject.t MCPServerConfig.t) :
  (∀ k, k ∈ JsObject.keys l → enabled config' !! k = enabled config !! k) →
  builtinDescriptor config' <$> l = builtinDescriptor config <$> l.
Proof.
  intros Hsame. apply list_fmap_ext. intros i [k sc] Hi.
  unfold builtinDescriptor, effective. rewrite Hsame; [done|].
  unfold JsObject.keys. apply list_elem_of_fmap. exists (k, sc).
  split; [done|]. by eapply list_elem_of_lookup_2.
Qed.

Lemma customDescriptor_ext config config' (l : JsObject.t MCPServerConfig.t) :
  (∀ k, k ∈ JsObject.keys l → enabled config' !! k = enabled config !! k) →
  customDescriptor config' <$> l = customDescriptor config <$> l.
Proof.
  intros Hsame. apply list_fmap_ext. intros i [k sc] Hi.
  unfold customDescriptor, effective. rewrite Hsame; [done|].
  unfold JsObject.keys. apply list_elem_of_fmap. exists (k, sc).
  split; [done|]. by eapply list_elem_of_lookup_2.
Qed.

(** ** How the operations compose *)

(** What a successful [Create] has checked and what it has written. *)
Lemma createRoute_accepted registry body w id :
  (createRoute registry body w).1 = ok (Done id) →
  ∃ type,
    Body.id body = Some id
    ∧ Body.type body = Some type
    ∧ is_empty type = false
    ∧ valid_id id = true
    ∧ (String.eqb type "http" && falsy (Body.url body) = false)
    ∧ (String.eqb type "stdio" && falsy (Body.command body) = false)
    ∧ inherited id = false
    ∧ JsObject.has id (builtinServers registry) = false
    ∧ JsObject.has id (custom (overlay registry w)) = false
    ∧ createRoute registry body w
      = (ok (Done id),
         written {| enabled := <[id := true]> (enabled (overlay registry w));
                    custom := JsObject.set id (customRecord type body)
                                (custom (overlay registry w)) |} w).
Proof.
  rewrite createRoute_run. cbv zeta.
  destruct (falsy (Body.id body)) eqn:Eid; simpl orb; cbv iota; [done|].
  destruct (falsy (Body.type body)) eqn:Etype; cbv iota; [done|].
  apply falsy_false in Eid as (id' & Hid & _).
  apply falsy_false in Etype as (type & Htype & Hne).
  rewrite Hid, Htype. simpl default.
  destruct (String.eqb type "http" && falsy (Body.url body)) eqn:Eurl; [done|].
  destruct (String.eqb type "stdio" && falsy (Body.command body)) eqn:Ecmd;
    [done|].
  destruct (valid_id id') eqn:Evalid; simpl negb; cbv iota; [|done].
  unfold truthy.
  destruct (inherited id') eqn:Hinherited; [by rewrite !orb_true_r|].
  rewrite !orb_false_r.
  destruct (JsObject.has id' (builtinServers registry)) eqn:Hb; simpl orb;
    cbv iota; [done|].
  destruct (JsObject.has id' (custom (overlay registry w))) eqn:Hc; cbv iota;
    [done|].
  simpl. intros [= ->]. exists type. by repeat split.
Qed.

(** X5. After a successful [Create] the listing is the former listing with
    one more descriptor: the new server, not built-in, enabled, named by
    the request's name or else by its identifier.  The new descriptor comes
    last unless the identifier is an array index, which JavaScript
    enumerates first; every other descriptor is unchanged. *)
Theorem create_extends_listing {runtime : Runtime} registry body w id :
  (createRoute registry body w).1 = ok (Done id) →
  let before := getAllServers registry (overlay registry w) in
  let after :=
    getAllServers registry
      (overlay registry (createRoute registry body w).2) in
  ∃ d,
    Descriptor.id d = id
    ∧ Descriptor.builtin d = false
    ∧ Descriptor.enabled d = true
    ∧ Descriptor.name d = or_else (Body.name body) id
    ∧ after ≡ₚ before ++ [d]
    ∧ (JsObject.array_index id = None → after = before ++ [d]).
Proof.
  intros Hdone. cbv zeta.
  destruct (createRoute_accepted registry body w id Hdone)
    as (type & _ & _ & _ & _ & _ & _ & _ & Hb & Hc & Hrun).
  rewrite Hrun. cbn [snd]. rewrite overlay_written.
  set (config := overlay registry w) in *.
  set (config' := {| enabled := <[id := true]> (enabled config);
                     custom := JsObject.set id (customRecord type body)
                                 (custom config) |}).
  assert (∀ l : JsObject.t MCPServerConfig.t,
            JsObject.has id l = false →
            ∀ k, k ∈ JsObject.keys l →
                 enabled config' !! k = enabled config !! k) as Hsame.
  { intros l Hl k Hk. apply lookup_insert_ne. intros <-.
    apply JsObjectFacts.has_keys in Hk. congruence. }
  exists (customDescriptor config' (id, customRecord type body)).
  split; [done|]. split; [done|].
  split; [simpl; unfold effective; simpl; by rewrite lookup_insert_eq|].
  split; [unfold customRecord; by destruct (String.eqb type "http")|].
  rewrite !getAllServers_app.
  rewrite (builtinDescriptor_ext config config') by eauto.
  rewrite <- app_assoc.
  rewrite <- (customDescriptor_ext config config' (custom config)) by eauto.
  change (custom config')
    with (JsObject.set id (customRecord type body) (custom config)).
  split.
  - apply Permutation_app_head.
    rewrite (set_fresh_perm id _ (custom config) Hc). cbn [fmap list_fmap].
    apply Permutation_cons_append.
  - intros Hindex. f_equal.
    rewrite set_fresh_last by done. by rewrite fmap_app.
Qed.

Lemma create_extends_listing_witness :
  ((createRoute sample_registry sample_body sample_world).1
   = ok (Done "my-tool")
   ∧ JsObject.array_index "my-tool" = None)
  ∧ Descriptor.id
      <$> getAllServers sample_registry
            (overlay sample_registry
               (createRoute sample_registry sample_body sample_world).2)
    = ["web-search"; "file-system"; "notes"; "local-tool"; "my-tool"].
Proof.
  split; [by split|].
  destruct (create_extends_listing sample_registry sample_body sample_world
              "my-tool" eq_refl) as (d & Hid & _ & _ & _ & _ & Hlast).
  rewrite (Hlast eq_refl), fmap_app. simpl. by rewrite Hid.
Defined.

Lemma id_chars_no_slash id :
  string_forall (λ c, is_lower c || is_digit c || is_hyphen c) id = true →
  string_forall (λ c, negb (is_slash c)) id = true.
Proof.
  induction id as [|c id IH]; simpl; [done|].
  intros [Hc Hall]%andb_true_iff. rewrite IH by done.
  rewrite andb_true_r. unfold is_slash.
  destruct (Ascii.eqb_spec c "/") as [->|]; [by vm_compute in Hc | done].
Qed.

Lemma valid_id_path_segment id : valid_id id = true → path_segment id.
Proof.
  unfold valid_id, path_segment. intros [Hne Hall]%andb_true_iff.
  split; [by destruct (is_empty id) | by apply id_chars_no_slash].
Qed.

(** X6. Every identifier [Create] accepts can be addressed in a path, and
    deleting a server right after creating it undoes the creation: [custom]
    is again what it was, and [enabled] has no entry left for the
    identifier (an entry that an earlier toggle of the then unknown
    identifier had left is gone too). *)
Theorem create_then_delete_restores {runtime : Runtime}
    registry fetch post del w id :
  method post = "POST" →
  method del = "DELETE" →
  (handleMCPServerRoutes registry fetch post api_root w).1
  = Some (ok (Done id)) →
  let config := overlay registry w in
  let w1 := (handleMCPServerRoutes registry fetch post api_root w).2 in
  path_segment id
  ∧ handleMCPServerRoutes registry fetch del (id_path id "") w1
    = (Some {| payload := Done id; status := 200 |},
       written {| enabled := delete id (enabled config);
                  custom := custom config |} w1).
Proof.
  intros Hpost Hdel Hdone. cbv zeta.
  rewrite route_create, handled_run in Hdone |- * by done.
  cbn [fst snd] in Hdone |- *. injection Hdone as Hdone.
  destruct (createRoute_accepted registry (json post) w id Hdone)
    as (type & _ & _ & _ & Hvalid & _ & _ & _ & _ & Hc & Hrun).
  apply valid_id_path_segment in Hvalid as Hseg. split; [done|].
  rewrite (route_delete registry fetch del id Hdel Hseg), handled_run.
  rewrite deleteRoute_run.
  cbv zeta. rewrite Hrun. cbn [snd]. rewrite overlay_written.
  cbn [custom enabled].
  assert (truthy id (JsObject.set id (customRecord type (json post))
                       (custom (overlay registry w))) = true) as ->.
  { unfold truthy, JsObject.has. by rewrite JsObjectFacts.get_set_eq. }
  cbn [fst snd]. by rewrite remove_set_fresh, delete_insert_eq.
Qed.

Lemma create_then_delete_restores_witness :
  (method create_request = "POST"
   ∧ method delete_request = "DELETE"
   ∧ (handleMCPServerRoutes sample_registry offline create_request api_root
        sample_world).1 = Some (ok (Done "my-tool")))
  ∧ custom
      (overlay sample_registry
         (handleMCPServerRoutes sample_registry offline delete_request
            (id_path "my-tool" "")
            (handleMCPServerRoutes sample_registry offline create_request
               api_root sample_world).2).2)
    = custom sample_overlay.
Proof.
  split; [by repeat split|].
  destruct (create_then_delete_restores sample_registry offline create_request
              delete_request sample_world "my-tool" eq_refl eq_refl eq_refl)
    as [_ Hrun].
  by rewrite Hrun.
Defined.

(** X7. Identifiers are not reusable while taken: once [Create] has
    succeeded for an identifier, every further [Create] carrying it is
    answered with status 400 and writes nothing, whatever else the request
    says. *)
Theorem create_twice_rejected registry body body' w id :
  (createRoute registry body w).1 = ok (Done id) →
  Body.id body' = Some id →
  let w1 := (createRoute registry body w).2 in
  ∃ error,
    createRoute registry body' w1
    = ({| payload := Failure error; status := 400 |}, w1).
Proof.
  intros Hdone Hid. cbv zeta.
  destruct (createRoute_accepted registry body w id Hdone)
    as (type & _ & _ & _ & _ & _ & _ & _ & _ & _ & Hrun).
  rewrite Hrun. cbn [snd].
  match goal with
  | |- context [createRoute registry body' ?x] => set (w1 := x)
  end.
  destruct (create_decision registry body' w1) as [[_ Hrej]|[Hok _]];
    [exact Hrej|].
  exfalso. apply Hok. left. do 5 right. exists id. split; [done|]. right.
  unfold w1. rewrite overlay_written. cbn [custom].
  apply JsObjectFacts.has_keys.
  unfold JsObject.has. by rewrite JsObjectFacts.get_set_eq.
Qed.

Lemma create_twice_rejected_witness :
  ((createRoute sample_registry sample_body fresh).1 = ok (Done "my-tool")
   ∧ Body.id sample_body = Some "my-tool")
  ∧ createRoute sample_registry sample_body
      (createRoute sample_registry sample_body fresh).2
    = (failed 400 "MCP server with this ID already exists",
       (createRoute sample_registry sample_body fresh).2).
Proof.
  split; [by split|].
  destruct (create_twice_rejected sample_registry sample_body sample_body
              fresh "my-tool" eq_refl eq_refl) as [error Hrun].
  rewrite Hrun. f_equal. unfold failed. f_equal.
  enough (Failure error
          = Failure "MCP server with this ID already exists") as [= ->]
    by done.
  assert ((createRoute sample_registry sample_body
             (createRoute sample_registry sample_body fresh).2).1
          = failed 400 "MCP server with this ID already exists") as Hc
    by reflexivity.
  rewrite Hrun in Hc. simpl in Hc. by injection Hc as ->.
Defined.

(** X8. [Create] does not check that [type] names one of the two variants:
    a request whose [type] is any non-empty string other than "http" and
    "stdio" passes the type-specific checks and, when its identifier is
    well-formed, free and not the name of a member that every object
    inherits, is stored as a stdio record whose [command] is whatever the
    request carried, possibly nothing. *)
Theorem create_unknown_type_stored_as_stdio registry body w id type :
  Body.id body = Some id →
  Body.type body = Some type →
  is_empty type = false →
  type ≠ "http" →
  type ≠ "stdio" →
  valid_id id = true →
  inherited id = false →
  id ∉ JsObject.keys (builtinServers registry) →
  id ∉ JsObject.keys (custom (overlay registry w)) →
  ∃ config',
    createRoute registry body w
    = ({| payload := Done id; status := 200 |},
       {| disk := File (Json config'); saved := config' :: saved w |})
    ∧ JsObject.get id (custom config')
      = Some {| MCPServerConfig.type := "stdio";
                MCPServerConfig.name := Body.name body;
                MCPServerConfig.url := None;
                MCPServerConfig.headers := None;
                MCPServerConfig.command := Body.command body;
                MCPServerConfig.args := Body.args body;
                MCPServerConfig.env := Body.env body |}.
Proof.
  intros Hid Htype Hne Hhttp Hstdio Hvalid Hinherited Hb Hc.
  apply JsObjectFacts.get_None_keys, JsObjectFacts.has_false_get in Hb, Hc.
  apply String.eqb_neq in Hhttp, Hstdio.
  eexists. split.
  - rewrite createRoute_run. cbv zeta. rewrite Hid, Htype. simpl falsy.
    rewrite Hne. assert (is_empty id = false) as ->.
    { unfold valid_id in Hvalid. by destruct (is_empty id). }
    simpl default. simpl orb. cbv iota.
    unfold truthy. rewrite Hhttp, Hstdio, Hvalid, Hb, Hc, Hinherited.
    simpl. reflexivity.
  - cbn [custom]. rewrite JsObjectFacts.get_set_eq.
    unfold customRecord. by rewrite Hhttp.
Qed.

Lemma create_unknown_type_stored_as_stdio_witness :
  (Body.id sse_body = Some "events"
   ∧ Body.type sse_body = Some "sse"
   ∧ valid_id "events" = true
   ∧ inherited "events" = false
   ∧ Body.command sse_body = None)
  ∧ ∃ config',
      createRoute sample_registry sse_body fresh
      = (ok (Done "events"), written config' fresh)
      ∧ (MCPServerConfig.type <$> JsObject.get "events" (custom config'))
        = Some "stdio"
      ∧ (MCPServerConfig.command <$> JsObject.get "events" (custom config'))
        = Some None.
Proof.
  split; [by repeat split|].
  assert ("events" ∉ JsObject.keys (builtinServers sample_registry)) as Hb.
  { by apply (bool_decide_unpack _). }
  assert ("events" ∉ JsObject.keys (custom (overlay sample_registry fresh)))
    as Hc.
  { by apply (bool_decide_unpack _). }
  destruct (create_unknown_type_stored_as_stdio sample_registry sse_body fresh
              "events" "sse" eq_refl eq_refl eq_refl) as (config' & Hrun & Hget);
    [discriminate | discriminate | reflexivity | reflexivity | exact Hb
    | exact Hc |].
  exists config'. rewrite Hget. by repeat split.
Defined.

(** ** Invariants of the overlay *)

(** X9. In every overlay the handler produces from a fresh installation the
    custom identifiers are pairwise distinct, each matches [a-z0-9-]+, and
    none is a built-in identifier. *)
Theorem reachable_custom_identifiers {runtime : Runtime} registry fetch w :
  reachable registry fetch w →
  let ids := JsObject.keys (custom (overlay registry w)) in
  NoDup ids
  ∧ ∀ id, id ∈ ids →
          valid_id id = true
          ∧ id ∉ JsObject.keys (builtinServers registry).
Proof.
  cbv zeta.
  apply (reachable_overlay_ind registry fetch
           (λ config,
              NoDup (JsObject.keys (custom config))
              ∧ ∀ id, id ∈ JsObject.keys (custom config) →
                      valid_id id = true
                      ∧ id ∉ JsObject.keys (builtinServers registry))).
  - split; [apply NoDup_nil_2|]. intros id Hin. by apply elem_of_nil in Hin.
  - intros config config' [Hnd Hids] Hmut.
    destruct Hmut as [k c|k c Hhas|k type body c _ _ Hvalid _ _ _ Hb Hc];
      cbn [custom].
    + done.
    + rewrite keys_remove. split; [by apply NoDup_filter|].
      intros id [_ Hin]%list_elem_of_filter. by apply Hids.
    + pose proof (keys_set_fresh k (customRecord type body) (custom c) Hc)
        as Hperm.
      split.
      * rewrite Hperm. apply NoDup_cons. split; [|done].
        apply JsObjectFacts.get_None_keys. by apply JsObjectFacts.has_false_get.
      * intros id Hin. rewrite Hperm in Hin.
        apply elem_of_cons in Hin as [->|Hin]; [|by apply Hids].
        split; [done|].
        apply JsObjectFacts.get_None_keys. by apply JsObjectFacts.has_false_get.
Qed.

Lemma reachable_custom_identifiers_witness :
  reachable sample_registry offline created_world
  ∧ NoDup (JsObject.keys (custom (overlay sample_registry created_world)))
  ∧ valid_id "my-tool" = true.
Proof.
  split; [apply created_world_reachable|].
  destruct (reachable_custom_identifiers sample_registry offline created_world
              created_world_reachable) as [Hnd Hids].
  split; [exact Hnd|]. apply Hids. by apply (bool_decide_unpack _).
Defined.

(** X10. Every custom record that the handler has stored under the tag
    http carries a non-empty [url]. *)
Theorem reachable_http_entries_have_url {runtime : Runtime}
    registry fetch w :
  reachable registry fetch w →
  ∀ id record,
    (id, record) ∈ custom (overlay registry w) →
    MCPServerConfig.type record = "http" →
    ∃ address, MCPServerConfig.url record = Some address
               ∧ is_empty address = false.
Proof.
  apply (reachable_overlay_ind registry fetch
           (λ config,
              ∀ id record,
                (id, record) ∈ custom config →
                MCPServerConfig.type record = "http" →
                ∃ address, MCPServerConfig.url record = Some address
                           ∧ is_empty address = false)).
  - intros id record Hin. by apply elem_of_nil in Hin.
  - intros config config' IH Hmut id record.
    destruct Hmut as [k c|k c Hhas|k type body c _ _ _ Hurl _ _ _ _];
      cbn [custom].
    + exact (IH id record).
    + rewrite remove_filter, list_elem_of_filter. intros [_ Hin].
      by apply (IH id record).
    + intros Hin. apply elem_of_set in Hin as [[= -> ->]|Hin];
        [|by apply (IH id record)].
      unfold customRecord.
      destruct (String.eqb type "http"); simpl; [|done].
      intros _. by apply falsy_false.
Qed.

Lemma reachable_http_entries_have_url_witness :
  (reachable sample_registry offline created_world
   ∧ ("my-tool", customRecord "http" sample_body)
     ∈ custom (overlay sample_registry created_world)
   ∧ MCPServerConfig.type (customRecord "http" sample_body) = "http")
  ∧ ∃ address,
      MCPServerConfig.url (customRecord "http" sample_body) = Some address
      ∧ is_empty address = false.
Proof.
  assert (("my-tool", customRecord "http" sample_body)
          ∈ custom (overlay sample_registry created_world)) as Hin.
  { apply list_elem_of_here. }
  split; [by auto using created_world_reachable|].
  by apply (reachable_http_entries_have_url sample_registry offline
              created_world created_world_reachable "my-tool").
Defined.

Lemma assign_is_Some id flag (e : gmap string bool) k :
  is_Some (e !! k) → is_Some (assign id flag e !! k).
Proof.
  intros Hk. unfold assign. destruct (setter_ignores e id); [done|].
  apply lookup_insert_is_Some'. by right.
Qed.

(** X11. When no built-in identifier is the name of a member that every
    object inherits, then in every overlay the handler produces from a
    fresh installation [enabled] has an explicit entry for every known
    identifier, built-in or custom: the default of [enabled[id] ?? true]
    is only ever taken for identifiers no registry knows. *)
Theorem reachable_known_ids_have_entries {runtime : Runtime}
    registry fetch w :
  (∀ k, k ∈ JsObject.keys (builtinServers registry) → inherited k = false) →
  reachable registry fetch w →
  ∀ id,
    id ∈ JsObject.keys (builtinServers registry)
    ∨ id ∈ JsObject.keys (custom (overlay registry w)) →
    is_Some (enabled (overlay registry w) !! id).
Proof.
  intros Hplain Hreach.
  cut ((∀ k, k ∈ JsObject.keys (builtinServers registry) →
            JsObject.get k (custom (overlay registry w)) = None)
       ∧ ∀ id,
           id ∈ JsObject.keys (builtinServers registry)
           ∨ id ∈ JsObject.keys (custom (overlay registry w)) →
           is_Some (enabled (overlay registry w) !! id)); [tauto|].
  revert w Hreach.
  apply (reachable_overlay_ind registry fetch
           (λ config,
              (∀ k, k ∈ JsObject.keys (builtinServers registry) →
                    JsObject.get k (custom config) = None)
              ∧ ∀ id,
                  id ∈ JsObject.keys (builtinServers registry)
                  ∨ id ∈ JsObject.keys (custom config) →
                  is_Some (enabled config !! id))).
  - split; [done|]. intros id [Hin|Hin]; [|by apply elem_of_nil in Hin].
    rewrite defaultConfig_enabled, decide_True by done. eauto.
  - intros config config' [Hdisjoint Hentries] Hmut.
    destruct Hmut as [k c|k c Hhas|k type body c _ _ _ _ _ _ Hb Hc];
      cbn [custom enabled].
    + split; [done|]. intros id Hid.
      apply assign_is_Some. by apply Hentries.
    + split.
      * intros id Hid. destruct (decide (k = id)) as [->|Hne].
        -- apply JsObjectFacts.get_remove_eq.
        -- rewrite JsObjectFacts.get_remove_ne by done. by apply Hdisjoint.
      * intros id Hid. rewrite keys_remove, list_elem_of_filter in Hid.
        destruct (decide (id = k)) as [->|Hne].
        -- exfalso. destruct Hid as [Hid|[Hid _]]; [|done].
           unfold truthy, JsObject.has in Hhas.
           by rewrite (Hdisjoint _ Hid), (Hplain _ Hid) in Hhas.
        -- rewrite lookup_delete_ne by done. apply Hentries. tauto.
    + split.
      * intros id Hid. rewrite JsObjectFacts.get_set_ne; [by apply Hdisjoint|].
        intros ->. apply JsObjectFacts.has_keys in Hid. congruence.
      * intros id Hid. apply lookup_insert_is_Some'.
        destruct (decide (k = id)) as [->|Hne]; [by left|]. right.
        apply Hentries. destruct Hid as [Hid|Hid]; [by left|]. right.
        rewrite (keys_set_fresh k _ (custom c) Hc) in Hid.
        apply elem_of_cons in Hid as [->|Hid]; done.
Qed.

Lemma sample_registry_plain k :
  k ∈ JsObject.keys (builtinServers sample_registry) → inherited k = false.
Proof.
  intros Hk. vm_compute JsObject.keys in Hk.
  repeat (apply elem_of_cons in Hk as [->|Hk]; [done|]).
  by apply elem_of_nil in Hk.
Defined.

Lemma reachable_known_ids_have_entries_witness :
  ((∀ k, k ∈ JsObject.keys (builtinServers sample_registry) →
         inherited k = false)
   ∧ reachable sample_registry offline created_world
   ∧ "file-system" ∈ JsObject.keys (builtinServers sample_registry))
  ∧ is_Some (enabled (overlay sample_registry created_world) !! "file-system").
Proof.
  assert ("file-system" ∈ JsObject.keys (builtinServers sample_registry))
    as Hin by (by apply (bool_decide_unpack _)).
  split; [by auto using created_world_reachable, sample_registry_plain|].
  apply (reachable_known_ids_have_entries sample_registry offline
           created_world sample_registry_plain created_world_reachable).
  by left.
Defined.

(** Without that condition the entry can be lost: a built-in server named
    [constructor] has none left once [DELETE /api/mcp-servers/constructor]
    has been answered with success. *)
Example builtin_constructor_loses_entry :
  let w := (deleteRoute inherited_registry "constructor" fresh).2 in
  "constructor" ∈ JsObject.keys (builtinServers inherited_registry)
  ∧ enabled (overlay inherited_registry fresh) !! "constructor" = Some true
  ∧ enabled (overlay inherited_registry w) !! "constructor" = None.
Proof. cbv zeta. split; [by apply (bool_decide_unpack _)|]. by split. Qed.

(** ** Mutations seen through the listing *)

Lemma flip_builtinDescriptor {runtime : Runtime} config id entry :
  builtinDescriptor
    {| enabled := <[id := negb (effective config id)]> (enabled config);
       custom := custom config |} entry
  = flip_enabled id (builtinDescriptor config entry).
Proof.
  destruct entry as [k sc]. unfold flip_enabled, builtinDescriptor. simpl.
  unfold effective at 1. simpl.
  destruct (String.eqb_spec k id) as [->|Hne].
  - by rewrite lookup_insert_eq.
  - rewrite lookup_insert_ne by done. done.
Qed.

Lemma flip_customDescriptor config id entry :
  customDescriptor
    {| enabled := <[id := negb (effective config id)]> (enabled config);
       custom := custom config |} entry
  = flip_enabled id (customDescriptor config entry).
Proof.
  destruct entry as [k sc]. unfold flip_enabled, customDescriptor. simpl.
  unfold effective at 1. simpl.
  destruct (String.eqb_spec k id) as [->|Hne].
  - by rewrite lookup_insert_eq.
  - rewrite lookup_insert_ne by done. done.
Qed.

Lemma getAllServers_toggled {runtime : Runtime} registry config id :
  getAllServers registry
    {| enabled := <[id := negb (effective config id)]> (enabled config);
       custom := custom config |}
  = flip_enabled id <$> getAllServers registry config.
Proof.
  rewrite !getAllServers_app, fmap_app, <- !list_fmap_compose. cbn [custom].
  f_equal; apply list_fmap_ext; intros i entry _; simpl.
  - apply flip_builtinDescriptor.
  - apply flip_customDescriptor.
Qed.


(** X12. A toggle changes the listing in one respect only: the descriptors
    that carry the toggled identifier have their [enabled] flag negated.
    Their number, order, names and all other fields stay, and a toggle of
    an identifier that is not listed leaves the listing as it is.  So does
    the toggle of [__proto__] while [enabled] has no entry of that name:
    its assignment is ignored. *)
Theorem toggle_flips_listed_flag {runtime : Runtime} registry id w :
  let config := overlay registry w in
  let before := getAllServers registry config in
  let after :=
    getAllServers registry (overlay registry (toggleRoute registry id w).2) in
  (id ≠ "__proto__" ∨ is_Some (enabled config !! id) →
   after = flip_enabled id <$> before)
  ∧ (id ∉ Descriptor.id <$> before → after = before)
  ∧ (id = "__proto__" → enabled config !! id = None → after = before).
Proof.
  cbv zeta. rewrite toggleRoute_run. cbv zeta.
  destruct (setter_ignores (enabled (overlay registry w)) id) eqn:E; cbn [snd];
    rewrite overlay_written.
  - apply setter_ignores_spec in E as [-> Hnone].
    split; [|done]. intros [?|[flag Hsome]]; [done | congruence].
  - rewrite getAllServers_toggled. split; [done|]. split.
    + intros Hout.
      rewrite <- (list_fmap_id (getAllServers registry (overlay registry w)))
        at 2.
      apply list_fmap_ext. intros i d Hd. unfold flip_enabled.
      destruct (String.eqb_spec (Descriptor.id d) id) as [Heq|]; [|done].
      exfalso. apply Hout. apply list_elem_of_fmap. exists d.
      split; [done|]. by eapply list_elem_of_lookup_2.
    + intros -> Hnone. exfalso.
      assert (setter_ignores (enabled (overlay registry w)) "__proto__" = true)
        as Hignored by (by apply setter_ignores_spec).
      congruence.
Qed.

Lemma toggle_flips_listed_flag_witness :
  ((("notes" ≠ "__proto__"
     ∨ is_Some (enabled (overlay sample_registry sample_world) !! "notes")))
   ∧ ("ghost"
      ∉ Descriptor.id <$> getAllServers sample_registry
                            (overlay sample_registry sample_world))
   ∧ enabled (overlay sample_registry sample_world) !! "__proto__" = None)
  ∧ (Descriptor.enabled
       <$> getAllServers sample_registry
             (overlay sample_registry
                (toggleRoute sample_registry "notes" sample_world).2))
    = (Descriptor.enabled
         <$> (flip_enabled "notes"
                <$> getAllServers sample_registry
                      (overlay sample_registry sample_world)))
  ∧ getAllServers sample_registry
      (overlay sample_registry
         (toggleRoute sample_registry "ghost" sample_world).2)
    = getAllServers sample_registry (overlay sample_registry sample_world)
  ∧ getAllServers sample_registry
      (overlay sample_registry
         (toggleRoute sample_registry "__proto__" sample_world).2)
    = getAllServers sample_registry (overlay sample_registry sample_world).
Proof.
  assert ("ghost"
          ∉ Descriptor.id <$> getAllServers sample_registry
                                (overlay sample_registry sample_world)) as Hout.
  { by apply (bool_decide_unpack _). }
  assert ("notes" ≠ "__proto__"
          ∨ is_Some (enabled (overlay sample_registry sample_world) !! "notes"))
    as Hheeded by (by left).
  split; [by repeat split|]. split; [|split].
  - destruct (toggle_flips_listed_flag sample_registry "notes" sample_world)
      as (Hflip & _ & _).
    by rewrite (Hflip Hheeded).
  - destruct (toggle_flips_listed_flag sample_registry "ghost" sample_world)
      as (_ & Hsame & _).
    exact (Hsame Hout).
  - destruct (toggle_flips_listed_flag sample_registry "__proto__" sample_world)
      as (_ & _ & Hignored).
    exact (Hignored eq_refl eq_refl).
Defined.

Lemma filter_keeps_all {A} (P : A → Prop) `{∀ x, Decision (P x)} (l : list A) :
  Forall P l → filter P l = l.
Proof.
  induction 1 as [|x l Hx Hl IH]; [done|].
  by rewrite filter_cons_True, IH.
Qed.

Lemma fmap_filter_keys (f : string * MCPServerConfig.t → Descriptor.t) id
    (l : JsObject.t MCPServerConfig.t) :
  (∀ entry, Descriptor.id (f entry) = entry.1) →
  f <$> filter (λ entry, entry.1 ≠ id) l
  = filter (λ d, Descriptor.id d ≠ id) (f <$> l).
Proof.
  intros Hid. induction l as [|entry l IH]; [done|].
  cbn [fmap list_fmap]. rewrite !filter_cons, Hid.
  destruct (decide (entry.1 ≠ id)); cbn [fmap list_fmap]; by rewrite IH.
Qed.

(** X13. After a successful [Delete] of an identifier that is not built-in,
    the listing is the former listing without the descriptors of that
    identifier; the remaining descriptors keep their order and all their
    fields. *)
Theorem delete_removes_from_listing {runtime : Runtime} registry id w :
  id ∈ JsObject.keys (custom (overlay registry w)) →
  id ∉ JsObject.keys (builtinServers registry) →
  let before := getAllServers registry (overlay registry w) in
  let after :=
    getAllServers registry (overlay registry (deleteRoute registry id w).2) in
  after = filter (λ d, Descriptor.id d ≠ id) before.
Proof.
  intros Hc Hb. cbv zeta. rewrite deleteRoute_run. cbv zeta.
  apply JsObjectFacts.has_keys in Hc as Hhas. unfold truthy. rewrite Hhas.
  cbn [orb snd]. rewrite overlay_written.
  set (config := overlay registry w).
  set (config' := {| enabled := delete id (enabled config);
                     custom := JsObject.remove id (custom config) |}).
  rewrite !getAllServers_app, filter_app.
  change (custom config') with (JsObject.remove id (custom config)).
  f_equal.
  - rewrite (builtinDescriptor_ext config config').
    + symmetry. apply filter_keeps_all, Forall_forall. intros d Hd.
      apply list_elem_of_fmap in Hd as ([k sc] & -> & Hin). simpl.
      intros ->. apply Hb. unfold JsObject.keys. apply list_elem_of_fmap.
      by exists (id, sc).
    + intros k Hk. apply lookup_delete_ne. by intros <-.
  - rewrite (customDescriptor_ext config config').
    + rewrite remove_filter. apply fmap_filter_keys, customDescriptor_id.
    + intros k Hk. apply lookup_delete_ne. intros <-.
      rewrite keys_remove in Hk. by apply list_elem_of_filter in Hk as [? _].
Qed.

Lemma delete_removes_from_listing_witness :
  ("notes" ∈ JsObject.keys (custom (overlay sample_registry sample_world))
   ∧ ("notes" ∉ JsObject.keys (builtinServers sample_registry)))
  ∧ Descriptor.id
      <$> getAllServers sample_registry
            (overlay sample_registry
               (deleteRoute sample_registry "notes" sample_world).2)
    = ["web-search"; "file-system"; "local-tool"].
Proof.
  assert ("notes" ∈ JsObject.keys (custom (overlay sample_registry sample_world)))
    as Hc by (by apply (bool_decide_unpack _)).
  assert ("notes" ∉ JsObject.keys (builtinServers sample_registry))
    as Hb by (by apply (bool_decide_unpack _)).
  split; [by split|].
  by rewrite (delete_removes_from_listing sample_registry "notes" sample_world
                Hc Hb).
Defined.



(** X15. When the overlay file is missing or not parseable, the first
    toggle of an identifier other than [__proto__] writes a complete file:
    the toggled identifier disabled (its default was enabled), every other
    built-in identifier enabled, and no custom server. *)
Theorem first_toggle_writes_defaults registry id w :
  disk w = NoFile ∨ disk w = File NotJson →
  id ≠ "__proto__" →
  ∃ config',
    toggleRoute registry id w
    = ({| payload := Toggled id (Some false); status := 200 |},
       {| disk := File (Json config'); saved := config' :: saved w |})
    ∧ custom config' = []
    ∧ enabled config' !! id = Some false
    ∧ ∀ other, other ≠ id →
        enabled config' !! other
        = if decide (other ∈ JsObject.keys (builtinServers registry))
          then Some true else None.
Proof.
  intros Hdisk Hid.
  assert (overlay registry w = defaultConfig registry) as Hdefault.
  { unfold overlay, loadMCPConfig. by destruct Hdisk as [->| ->]. }
  assert (effective (defaultConfig registry) id = true) as Heff.
  { unfold effective. rewrite defaultConfig_enabled. by case_decide. }
  eexists. split.
  - rewrite toggleRoute_run. cbv zeta.
    rewrite setter_heeds by (by left). by rewrite Hdefault, Heff.
  - cbn [custom enabled]. split; [done|].
    split; [apply lookup_insert_eq|].
    intros other Hne. rewrite lookup_insert_ne by done.
    apply defaultConfig_enabled.
Qed.

Lemma first_toggle_writes_defaults_witness :
  ((disk fresh = NoFile ∨ disk fresh = File NotJson)
   ∧ "web-search" ≠ "__proto__")
  ∧ ∃ config',
      toggleRoute sample_registry "web-search" fresh
      = (ok (Toggled "web-search" (Some false)), written config' fresh)
      ∧ enabled config' !! "file-system" = Some true.
Proof.
  split; [by split; [left|]|].
  destruct (first_toggle_writes_defaults sample_registry "web-search" fresh)
    as (config' & Hrun & _ & _ & Hother); [by left | done |].
  exists config'. split; [exact Hrun|].
  rewrite Hother by discriminate. by apply (bool_decide_unpack _).
Defined.

(** X16. The listing never shows [headers] or [env]: it is the same
    whatever headers and environment variables the built-in and custom
    records carry. *)
Theorem listing_ignores_headers_and_env {runtime : Runtime} registry config :
  getAllServers (drop_headers_env <$> registry)
    {| enabled := enabled config;
       custom := drop_headers_env (custom config) |}
  = getAllServers registry config.
Proof.
  rewrite !getAllServers_app. cbn [custom].
  assert (builtinServers (drop_headers_env <$> registry)
          = drop_headers_env (builtinServers registry)) as ->.
  { unfold builtinServers. rewrite lookup_fmap.
    by destruct (registry !! "anthropic"). }
  unfold drop_headers_env. rewrite <- !list_fmap_compose.
  f_equal; apply list_fmap_ext; by intros i [k sc] _.
Qed.
